(** * The audiobook-generator client (src/App.jsx)

    A shallow embedding of the single React component of the repository:
    the axios request interceptor, the four asynchronous click handlers
    ([handleLogin], [uploadFile], [askQuestion], [generateAudio]), the two
    loaders ([fetchLangs], [fetchHistory]), [handleLogout], the [useEffect]
    hook on [isLoggedIn] and the conditional parts of the JSX tree.

    The component is modelled as a labelled transition system.  An event is
    either something the user does with a rendered control or the arrival of
    the response to a request that is still in flight.  An [async] function
    is cut at its single [await]: the part before it issues the request and
    registers the rest of the function (with what its closure captured) as
    the continuation of that request.  Every step reports what it emitted:
    requests handed to the network, [alert] boxes and [console.error]
    lines.

    Responses may arrive in any order and between any two user events, so
    the runs of the system cover the races of overlapping requests.  Three
    things are fixed by the model: the state updates of one handler are
    rendered together when it returns, and the effect runs after that
    render; the interceptor reads the storage when the request is made (it
    runs before any other event can); a render that throws is not
    modelled, the component goes on. *)

From Stdlib Require Import ZArith.
From stdpp Require Import gmap strings list fin_maps pretty.

Open Scope string_scope.
Open Scope list_scope.
Set Warnings "-register-all".

(** ** JavaScript values *)

Module JS.

(** [new Blob(parts, {type})]: the bytes and the MIME type. *)
Record Blob := { blob_bytes : string; blob_type : string }.

(** The values a response body (parsed by axios) and the pieces of React
    state fed from it can hold.  JSON numbers are kept as integers: a
    fractional number behaves like any other non-zero number here, since
    the component only tests numbers for truthiness. *)
Inductive value :=
| VUndefined
| VNull
| VBool (b : bool)
| VNum (n : Z)
| VStr (s : string)
| VArr (items : list value)
| VObj (props : list (string * value))
| VBlob (b : Blob).

(** Truthiness of a string: [if (s)], [!s], [s && ...]. *)
Definition truthy_str (s : string) : bool :=
  match s with
  | "" => false
  | _ => true
  end.

(** Truthiness of a value. *)
Definition truthy (v : value) : bool :=
  match v with
  | VUndefined | VNull => false
  | VBool b => b
  | VNum n => negb (n =? 0)%Z
  | VStr s => truthy_str s
  | VArr _ | VObj _ | VBlob _ => true
  end.

(** [a || b] *)
Definition or_else (a b : value) : value := if truthy a then a else b.

(** Own property of an object literal / parsed JSON object. *)
Fixpoint own_prop (k : string) (props : list (string * value)) : option value :=
  match props with
  | [] => None
  | (k', v) :: rest => if String.eqb k' k then Some v else own_prop k rest
  end.

(** The property read [v.k] for the data keys the component reads
    ([token], [langs], [qa_pairs], [answer]): on [null] and [undefined] it
    throws a TypeError ([None]); on an object it is the own property or
    [undefined]; strings, numbers, booleans, arrays and blobs have no
    property of these names. *)
Definition get_field (v : value) (k : string) : option value :=
  match v with
  | VUndefined | VNull => None
  | VObj props => Some (default VUndefined (own_prop k props))
  | _ => Some VUndefined
  end.

(** [String(v)], the conversion [localStorage.setItem] and the [Blob]
    constructor apply to what they are given. *)
Fixpoint to_String (v : value) : string :=
  match v with
  | VUndefined => "undefined"
  | VNull => "null"
  | VBool true => "true"
  | VBool false => "false"
  | VNum n => pretty n
  | VStr s => s
  | VArr items =>
      (fix join (l : list value) : string :=
         match l with
         | [] => ""
         | x :: rest =>
             let sx := match x with
                       | VUndefined | VNull => ""
                       | _ => to_String x
                       end in
             match rest with
             | [] => sx
             | _ :: _ => sx +:+ "," +:+ join rest
             end
         end) items
  | VObj _ => "[object Object]"
  | VBlob _ => "[object Blob]"
  end.

(** The bytes a value contributes as a part of [new Blob([v], ...)]. *)
Definition blob_part (v : value) : string :=
  match v with
  | VBlob b => blob_bytes b
  | _ => to_String v
  end.

End JS.
Import JS.

(** ** Requests, responses and what a step emits *)

Inductive http_method := GET | POST.

(** A [File] picked in the file input or dropped on the upload card. *)
Record File := { file_name : string; file_bytes : string }.

Inductive body :=
| NoBody
| JsonBody (v : value)
| FormData (fields : list (string * File)).

(** An axios request config.  [headers] holds the headers this component
    sets itself (the ones axios adds on its own are left out). *)
Record request := {
  method : http_method;
  baseURL : string;
  url : string;
  data : body;
  headers : gmap string string;
  responseType : option string
}.

Inductive error :=
| AxiosError (msg : string)   (* non-2xx status or network failure *)
| TypeError (msg : string).   (* property read on null / undefined *)

(** What the promise returned by [axios.get] / [axios.post] settles to:
    fulfilled with [res.data], or rejected. *)
Inductive response :=
| Fulfilled (res_data : value)
| Rejected (e : error).

(** The rest of an [async] function after its [await], with what its
    closure captured when the function was called. *)
Inductive continuation :=
| AfterLangs
| AfterHistory
| AfterLogin
| AfterUpload (f : File)
| AfterAnswer
| AfterAudiobook.

Inductive effect :=
| Send (id : nat) (r : request)
| Alert (msg : string)
| ConsoleError (label : option string) (e : error).

(** ** The component's state *)

(** The [useState] cells of [App], under their names in the source. *)
Record AppState := {
  file : option File;
  filename : option string;
  question : string;
  answer : value;
  qaHistory : value;
  langs : value;
  selectedLang : string;
  audioUrl : option string;
  dragOver : bool;
  showLogin : bool;
  isLoggedIn : bool;
  username : string;
  password : string
}.

(** The browser around the component: [localStorage], the requests still
    in flight with their continuations, and the blob URL store filled by
    [URL.createObjectURL]. *)
Record World := {
  react : AppState;
  localStorage : gmap string string;
  in_flight : gmap nat continuation;
  next_id : nat;
  blob_urls : gmap string Blob;
  next_url : nat
}.

(** The values of the [useState] calls at mount. *)
Definition initial_state : AppState := {|
  file := None; filename := None; question := ""; answer := VStr "";
  qaHistory := VArr []; langs := VObj []; selectedLang := "en";
  audioUrl := None; dragOver := false;
  showLogin := true; isLoggedIn := false; username := ""; password := ""
|}.

(** A page load: [localStorage] is what earlier sessions left in it. *)
Definition init (storage : gmap string string) : World := {|
  react := initial_state; localStorage := storage;
  in_flight := ∅; next_id := 0; blob_urls := ∅; next_url := 0
|}.

Definition with_react (f : AppState → AppState) (w : World) : World :=
  {| react := f (react w); localStorage := localStorage w;
     in_flight := in_flight w; next_id := next_id w;
     blob_urls := blob_urls w; next_url := next_url w |}.

Definition with_storage (f : gmap string string → gmap string string) (w : World) : World :=
  {| react := react w; localStorage := f (localStorage w);
     in_flight := in_flight w; next_id := next_id w;
     blob_urls := blob_urls w; next_url := next_url w |}.

(** ** Commands: state, emitted effects and exceptions *)

Inductive outcome (A : Type) :=
| Returned (a : A)
| Thrown (e : error).
Arguments Returned {A} a.
Arguments Thrown {A} e.

Definition Cmd (A : Type) : Type := World → outcome A * World * list effect.

Definition cmd_ret {A} (a : A) : Cmd A := λ w, (Returned a, w, []).

Definition cmd_bind {A B} (k : A → Cmd B) (c : Cmd A) : Cmd B := λ w,
  match c w with
  | (Returned a, w1, out1) =>
      match k a w1 with
      | (r, w2, out2) => (r, w2, out1 ++ out2)
      end
  | (Thrown e, w1, out1) => (Thrown e, w1, out1)
  end.

#[global] Instance Cmd_ret : MRet Cmd := @cmd_ret.
#[global] Instance Cmd_bind : MBind Cmd := @cmd_bind.

Definition throw {A} (e : error) : Cmd A := λ w, (Thrown e, w, []).

(** [try { c } catch (e) { h e }] *)
Definition try_catch (c : Cmd unit) (h : error → Cmd unit) : Cmd unit := λ w,
  match c w with
  | (Thrown e, w1, out1) =>
      match h e w1 with
      | (r, w2, out2) => (r, w2, out1 ++ out2)
      end
  | settled => settled
  end.

Definition get_state : Cmd AppState := λ w, (Returned (react w), w, []).
Definition set_state (f : AppState → AppState) : Cmd unit :=
  λ w, (Returned tt, with_react f w, []).

Definition alert (msg : string) : Cmd unit := λ w, (Returned tt, w, [Alert msg]).
Definition console_error (label : option string) (e : error) : Cmd unit :=
  λ w, (Returned tt, w, [ConsoleError label e]).

Definition localStorage_getItem (k : string) : Cmd (option string) :=
  λ w, (Returned (localStorage w !! k), w, []).
Definition localStorage_setItem (k : string) (v : value) : Cmd unit :=
  λ w, (Returned tt, with_storage (insert k (to_String v)) w, []).
Definition localStorage_removeItem (k : string) : Cmd unit :=
  λ w, (Returned tt, with_storage (delete k) w, []).

(** [URL.createObjectURL(blob)]: a URL no earlier call returned, entered in
    the blob URL store.  Nothing in the component revokes one. *)
Definition createObjectURL (b : Blob) : Cmd string := λ w,
  let u := "blob:" +:+ pretty (next_url w) in
  (Returned u,
   {| react := react w; localStorage := localStorage w;
      in_flight := in_flight w; next_id := next_id w;
      blob_urls := <[u := b]> (blob_urls w); next_url := S (next_url w) |},
   []).

(** [await p] once [p] has settled. *)
Definition await (res : response) : Cmd value :=
  match res with
  | Fulfilled d => mret d
  | Rejected e => throw e
  end.

(** [v.k] as a command: the TypeError is thrown. *)
Definition field (v : value) (k : string) : Cmd value :=
  match get_field v k with
  | Some x => mret x
  | None => throw (TypeError ("Cannot read properties of " +:+ to_String v))
  end.

(** ** The [useState] setters *)

Definition upd_file (x : option File) (st : AppState) : AppState :=
  {| file := x; filename := filename st; question := question st; answer :=
     answer st; qaHistory := qaHistory st; langs := langs st; selectedLang
     := selectedLang st; audioUrl := audioUrl st; dragOver := dragOver st;
     showLogin := showLogin st; isLoggedIn := isLoggedIn st; username :=
     username st; password := password st |}.
Definition upd_filename (x : option string) (st : AppState) : AppState :=
  {| file := file st; filename := x; question := question st; answer :=
     answer st; qaHistory := qaHistory st; langs := langs st; selectedLang
     := selectedLang st; audioUrl := audioUrl st; dragOver := dragOver st;
     showLogin := showLogin st; isLoggedIn := isLoggedIn st; username :=
     username st; password := password st |}.
Definition upd_question (x : string) (st : AppState) : AppState :=
  {| file := file st; filename := filename st; question := x; answer :=
     answer st; qaHistory := qaHistory st; langs := langs st; selectedLang
     := selectedLang st; audioUrl := audioUrl st; dragOver := dragOver st;
     showLogin := showLogin st; isLoggedIn := isLoggedIn st; username :=
     username st; password := password st |}.
Definition upd_answer (x : value) (st : AppState) : AppState :=
  {| file := file st; filename := filename st; question := question st;
     answer := x; qaHistory := qaHistory st; langs := langs st; selectedLang
     := selectedLang st; audioUrl := audioUrl st; dragOver := dragOver st;
     showLogin := showLogin st; isLoggedIn := isLoggedIn st; username :=
     username st; password := password st |}.
Definition upd_qaHistory (x : value) (st : AppState) : AppState :=
  {| file := file st; filename := filename st; question := question st;
     answer := answer st; qaHistory := x; langs := langs st; selectedLang :=
     selectedLang st; audioUrl := audioUrl st; dragOver := dragOver st;
     showLogin := showLogin st; isLoggedIn := isLoggedIn st; username :=
     username st; password := password st |}.
Definition upd_langs (x : value) (st : AppState) : AppState :=
  {| file := file st; filename := filename st; question := question st;
     answer := answer st; qaHistory := qaHistory st; langs := x;
     selectedLang := selectedLang st; audioUrl := audioUrl st; dragOver :=
     dragOver st; showLogin := showLogin st; isLoggedIn := isLoggedIn st;
     username := username st; password := password st |}.
Definition upd_selectedLang (x : string) (st : AppState) : AppState :=
  {| file := file st; filename := filename st; question := question st;
     answer := answer st; qaHistory := qaHistory st; langs := langs st;
     selectedLang := x; audioUrl := audioUrl st; dragOver := dragOver st;
     showLogin := showLogin st; isLoggedIn := isLoggedIn st; username :=
     username st; password := password st |}.
Definition upd_audioUrl (x : option string) (st : AppState) : AppState :=
  {| file := file st; filename := filename st; question := question st;
     answer := answer st; qaHistory := qaHistory st; langs := langs st;
     selectedLang := selectedLang st; audioUrl := x; dragOver := dragOver
     st; showLogin := showLogin st; isLoggedIn := isLoggedIn st; username :=
     username st; password := password st |}.
Definition upd_dragOver (x : bool) (st : AppState) : AppState :=
  {| file := file st; filename := filename st; question := question st;
     answer := answer st; qaHistory := qaHistory st; langs := langs st;
     selectedLang := selectedLang st; audioUrl := audioUrl st; dragOver :=
     x; showLogin := showLogin st; isLoggedIn := isLoggedIn st; username :=
     username st; password := password st |}.
Definition upd_showLogin (x : bool) (st : AppState) : AppState :=
  {| file := file st; filename := filename st; question := question st;
     answer := answer st; qaHistory := qaHistory st; langs := langs st;
     selectedLang := selectedLang st; audioUrl := audioUrl st; dragOver :=
     dragOver st; showLogin := x; isLoggedIn := isLoggedIn st; username :=
     username st; password := password st |}.
Definition upd_isLoggedIn (x : bool) (st : AppState) : AppState :=
  {| file := file st; filename := filename st; question := question st;
     answer := answer st; qaHistory := qaHistory st; langs := langs st;
     selectedLang := selectedLang st; audioUrl := audioUrl st; dragOver :=
     dragOver st; showLogin := showLogin st; isLoggedIn := x; username :=
     username st; password := password st |}.
Definition upd_username (x : string) (st : AppState) : AppState :=
  {| file := file st; filename := filename st; question := question st;
     answer := answer st; qaHistory := qaHistory st; langs := langs st;
     selectedLang := selectedLang st; audioUrl := audioUrl st; dragOver :=
     dragOver st; showLogin := showLogin st; isLoggedIn := isLoggedIn st;
     username := x; password := password st |}.
Definition upd_password (x : string) (st : AppState) : AppState :=
  {| file := file st; filename := filename st; question := question st;
     answer := answer st; qaHistory := qaHistory st; langs := langs st;
     selectedLang := selectedLang st; audioUrl := audioUrl st; dragOver :=
     dragOver st; showLogin := showLogin st; isLoggedIn := isLoggedIn st;
     username := username st; password := x |}.

Definition setFile (x : option File) : Cmd unit := set_state (upd_file x).
Definition setFilename (x : option string) : Cmd unit := set_state (upd_filename x).
Definition setQuestion (x : string) : Cmd unit := set_state (upd_question x).
Definition setAnswer (x : value) : Cmd unit := set_state (upd_answer x).
Definition setQaHistory (x : value) : Cmd unit := set_state (upd_qaHistory x).
Definition setLangs (x : value) : Cmd unit := set_state (upd_langs x).
Definition setSelectedLang (x : string) : Cmd unit := set_state (upd_selectedLang x).
Definition setAudioUrl (x : option string) : Cmd unit := set_state (upd_audioUrl x).
Definition setDragOver (x : bool) : Cmd unit := set_state (upd_dragOver x).
Definition setShowLogin (x : bool) : Cmd unit := set_state (upd_showLogin x).
Definition setIsLoggedIn (x : bool) : Cmd unit := set_state (upd_isLoggedIn x).
Definition setUsername (x : string) : Cmd unit := set_state (upd_username x).
Definition setPassword (x : string) : Cmd unit := set_state (upd_password x).

(** ** axios *)

(** [axios.interceptors.request.use]: the token is read from
    [localStorage] when the request is made, and attached if truthy. *)
Definition auth_interceptor (config : request) : Cmd request :=
  token ← localStorage_getItem "auth_token";
  match token with
  | Some t =>
      if truthy_str t
      then mret {| method := method config; baseURL := baseURL config;
                   url := url config; data := data config;
                   headers := <["Authorization" := "Bearer " +:+ t]> (headers config);
                   responseType := responseType config |}
      else mret config
  | None => mret config
  end.

(** Hand a request to the network; [k] runs when its response arrives. *)
Definition dispatch (config : request) (k : continuation) : Cmd unit := λ w,
  (Returned tt,
   {| react := react w; localStorage := localStorage w;
      in_flight := <[next_id w := k]> (in_flight w); next_id := S (next_id w);
      blob_urls := blob_urls w; next_url := next_url w |},
   [Send (next_id w) config]).

Definition axios_request (config : request) (k : continuation) : Cmd unit :=
  config' ← auth_interceptor config;
  dispatch config' k.

(** [axios.defaults.baseURL] *)
Definition defaults_baseURL : string := "http://127.0.0.1:8000".

Definition axios_get (path : string) (k : continuation) : Cmd unit :=
  axios_request {| method := GET; baseURL := defaults_baseURL; url := path;
                   data := NoBody; headers := ∅; responseType := None |} k.

Definition axios_post (path : string) (payload : body)
    (hdrs : gmap string string) (rtype : option string)
    (k : continuation) : Cmd unit :=
  axios_request {| method := POST; baseURL := defaults_baseURL; url := path;
                   data := payload; headers := hdrs; responseType := rtype |} k.

(** ** The functions of [App] *)

(** Each [async] function [f] is the pair of [f] (up to its [await]) and
    [f_resume] (from the [await] on, given the settled promise). *)

Definition fetchLangs : Cmd unit := axios_get "/api/langs" AfterLangs.

Definition fetchLangs_resume (res : response) : Cmd unit :=
  try_catch
    (res_data ← await res;
     l ← field res_data "langs";
     setLangs (or_else l (VObj [])))
    (λ e, console_error (Some "Error fetching langs:") e).

Definition fetchHistory : Cmd unit := axios_get "/api/qa-history" AfterHistory.

Definition fetchHistory_resume (res : response) : Cmd unit :=
  try_catch
    (res_data ← await res;
     l ← field res_data "qa_pairs";
     setQaHistory (or_else l (VArr [])))
    (λ e, console_error (Some "Error fetching history:") e).

Definition handleLogin : Cmd unit :=
  st ← get_state;
  if negb (truthy_str (username st)) || negb (truthy_str (password st))
  then alert "Please enter username & password"
  else axios_post "/api/login"
         (JsonBody (VObj [("username", VStr (username st));
                          ("password", VStr (password st))]))
         ∅ None AfterLogin.

Definition handleLogin_resume (res : response) : Cmd unit :=
  try_catch
    (res_data ← await res;
     token ← field res_data "token";
     if truthy token
     then localStorage_setItem "auth_token" token;;
          setIsLoggedIn true;;
          setShowLogin false;;
          fetchLangs;;
          fetchHistory
     else alert "Invalid credentials")
    (λ err, alert "Login failed. Check your credentials.";;
            console_error None err).

Definition uploadFile : Cmd unit :=
  st ← get_state;
  match file st with
  | None => alert "Pick a file first!"
  | Some f =>
      axios_post "/api/upload" (FormData [("file", f)])
        {["Content-Type" := "multipart/form-data"]} None (AfterUpload f)
  end.

Definition uploadFile_resume (f : File) (res : response) : Cmd unit :=
  try_catch
    (_ ← await res;
     setFilename (Some (file_name f));;
     fetchHistory;;
     alert "✅ File uploaded successfully!")
    (λ e, console_error (Some "Upload failed:") e;;
          alert "Upload failed — check backend logs.").

Definition askQuestion : Cmd unit :=
  st ← get_state;
  if negb (truthy_str (question st))
  then alert "Enter a question"
  else axios_post "/api/answer"
         (JsonBody (VObj [("question", VStr (question st))]))
         ∅ None AfterAnswer.

Definition askQuestion_resume (res : response) : Cmd unit :=
  try_catch
    (res_data ← await res;
     a ← field res_data "answer";
     setAnswer a;;
     fetchHistory)
    (λ e, console_error (Some "Ask failed:") e;;
          alert "Failed to get answer").

Definition generateAudio : Cmd unit :=
  st ← get_state;
  axios_post "/api/audiobook"
    (JsonBody (VObj [("lang_code", VStr (selectedLang st))]))
    ∅ (Some "blob") AfterAudiobook.

Definition generateAudio_resume (res : response) : Cmd unit :=
  try_catch
    (res_data ← await res;
     u ← createObjectURL {| blob_bytes := blob_part res_data;
                            blob_type := "audio/mpeg" |};
     setAudioUrl (Some u);;
     alert "🎧 Audio generated successfully!")
    (λ e, console_error (Some "Audio generation failed:") e;;
          alert "Audio generation failed — check backend logs.").

Definition handleLogout : Cmd unit :=
  localStorage_removeItem "auth_token";;
  setIsLoggedIn false;;
  setShowLogin true;;
  setQaHistory (VArr []);;
  setAudioUrl None;;
  setAnswer (VStr "").

(** The body of [useEffect(..., [isLoggedIn])]. *)
Definition effect_isLoggedIn : Cmd unit :=
  st ← get_state;
  if isLoggedIn st then fetchLangs;; fetchHistory else mret tt.

(** ** Events and steps *)

(** What can happen to the mounted component: the user works a control of
    the JSX tree, or a request in flight settles. *)
Inductive event :=
| NavLogin                              (* navbar Login: setShowLogin(true) *)
| NavLogout                             (* navbar Logout: handleLogout *)
| DragOverCard
| DragLeaveCard
| DropOnCard (files : list File)
| FileInputChange (files : list File)
| ClickUpload
| QuestionChange (s : string)
| ClickGetAnswer
| LangChange (code : string)
| ClickGenerateAudio
| UsernameChange (s : string)
| PasswordChange (s : string)
| ClickLogin
| CloseLogin                            (* the modal's close button *)
| Settle (id : nat) (res : response).

(** Take the continuation of a request out of the in-flight table. *)
Definition take_in_flight (id : nat) : Cmd (option continuation) := λ w,
  (Returned (in_flight w !! id),
   {| react := react w; localStorage := localStorage w;
      in_flight := delete id (in_flight w); next_id := next_id w;
      blob_urls := blob_urls w; next_url := next_url w |},
   []).

Definition resume (k : continuation) (res : response) : Cmd unit :=
  match k with
  | AfterLangs => fetchLangs_resume res
  | AfterHistory => fetchHistory_resume res
  | AfterLogin => handleLogin_resume res
  | AfterUpload f => uploadFile_resume f res
  | AfterAnswer => askQuestion_resume res
  | AfterAudiobook => generateAudio_resume res
  end.

(** The handler the JSX attaches to each control. *)
Definition handle (ev : event) : Cmd unit :=
  match ev with
  | NavLogin => setShowLogin true
  | NavLogout => handleLogout
  | DragOverCard => setDragOver true
  | DragLeaveCard => setDragOver false
  | DropOnCard files =>
      setDragOver false;;
      match files with
      | f :: _ => setFile (Some f)
      | [] => mret tt
      end
  | FileInputChange files => setFile (head files)
  | ClickUpload => uploadFile
  | QuestionChange s => setQuestion s
  | ClickGetAnswer => askQuestion
  | LangChange code => setSelectedLang code
  | ClickGenerateAudio => generateAudio
  | UsernameChange s => setUsername s
  | PasswordChange s => setPassword s
  | ClickLogin => handleLogin
  | CloseLogin => setShowLogin false
  | Settle id res =>
      k ← take_in_flight id;
      match k with
      | Some k => resume k res
      | None => mret tt
      end
  end.

(** After the handler, React renders the batched updates and runs the
    effect if its dependency [isLoggedIn] differs from the last render. *)
Definition commit (prev : AppState) : Cmd unit :=
  st ← get_state;
  if Bool.eqb (isLoggedIn prev) (isLoggedIn st) then mret tt else effect_isLoggedIn.

Definition step (ev : event) (w : World) : World * list effect :=
  let '(_, w1, out1) := handle ev w in
  let '(_, w2, out2) := commit (react w) w1 in
  (w2, out1 ++ out2).

Fixpoint run (evs : list event) (w : World) : World * list effect :=
  match evs with
  | [] => (w, [])
  | ev :: rest =>
      let '(w1, out1) := step ev w in
      let '(w2, out2) := run rest w1 in
      (w2, out1 ++ out2)
  end.

(** The requests, alerts and log lines among what was emitted. *)
Definition requests (out : list effect) : list request :=
  omap (λ e, match e with Send _ r => Some r | _ => None end) out.
Definition alerts (out : list effect) : list string :=
  omap (λ e, match e with Alert m => Some m | _ => None end) out.
Definition logged (out : list effect) : list (option string * error) :=
  omap (λ e, match e with ConsoleError l x => Some (l, x) | _ => None end) out.

(** ** The rendered tree *)

(** The conditional structure of the JSX: which navbar button, whether the
    main content or the "please log in" line is shown, whether the login
    modal is open, and the [audio] element with its [src].  Text content
    (history rows, language options, the answer paragraph) is left out. *)
Inductive nav_button := LoginButton | LogoutButton.

Record view := {
  nav : nav_button;
  main_content : bool;
  login_modal : bool;
  audio_src : option string
}.

Definition render (st : AppState) : view := {|
  nav := if negb (isLoggedIn st) then LoginButton else LogoutButton;
  main_content := isLoggedIn st;
  login_modal := showLogin st;
  audio_src :=
    if isLoggedIn st
    then match audioUrl st with
         | Some u => if truthy_str u then Some u else None
         | None => None
         end
    else None
|}.

(** The keys [Object.entries] enumerates, for the language [select]. *)
Definition Object_keys (v : value) : list string :=
  match v with
  | VObj props => props.*1
  | VArr items => pretty <$> seq 0 (length items)
  | VStr s => pretty <$> seq 0 (String.length s)
  | _ => []
  end.

(** Whether the control that raises an event is in the rendered tree. *)
Definition rendered (ev : event) (w : World) : bool :=
  let st := react w in
  match ev with
  | NavLogin => negb (isLoggedIn st)
  | NavLogout => isLoggedIn st
  | DragOverCard | DragLeaveCard | DropOnCard _ | FileInputChange _
  | ClickUpload | QuestionChange _ | ClickGetAnswer | ClickGenerateAudio =>
      isLoggedIn st
  | LangChange code =>
      isLoggedIn st && bool_decide (code ∈ Object_keys (langs st))
  | UsernameChange _ | PasswordChange _ | ClickLogin | CloseLogin =>
      showLogin st
  | Settle id _ => bool_decide (is_Some (in_flight w !! id))
  end.

(** A run in which every event comes from a rendered control or settles a
    request that is in flight. *)
Fixpoint possible (evs : list event) (w : World) : bool :=
  match evs with
  | [] => true
  | ev :: rest => rendered ev w && possible rest (step ev w).1
  end.

(** * The vocabulary of the statements

    Functions that say in closed form what the commands above compute; each
    is proved equal to the command it stands for before it is used. *)

(** The header the interceptor attaches, as a function of the storage. *)
Definition bearer (storage : gmap string string) : option string :=
  match storage !! "auth_token" with
  | Some t => if truthy_str t then Some ("Bearer " +:+ t) else None
  | None => None
  end.

Definition authorization (r : request) : option string :=
  headers r !! "Authorization".

(** The interceptor as a function, and the world after a dispatch. *)
Definition authorize (storage : gmap string string) (config : request) : request :=
  match bearer storage with
  | Some h =>
      {| method := method config; baseURL := baseURL config;
         url := url config; data := data config;
         headers := <["Authorization" := h]> (headers config);
         responseType := responseType config |}
  | None => config
  end.

Definition enqueue (k : continuation) (w : World) : World :=
  {| react := react w; localStorage := localStorage w;
     in_flight := <[next_id w := k]> (in_flight w); next_id := S (next_id w);
     blob_urls := blob_urls w; next_url := next_url w |}.

(** ** Commands that leave the token alone

    A command is [stable] when it does not write [localStorage] and every
    request it emits carries the header the storage calls for.  All of the
    component is stable but the two places that write the token. *)

Definition stable_at {A} (c : Cmd A) (w : World) : Prop :=
  localStorage (c w).1.2 = localStorage w ∧
  Forall (λ r, authorization r = bearer (localStorage w)) (requests (c w).2).

Definition stable {A} (c : Cmd A) : Prop := ∀ w, stable_at c w.

(** ** Requests and worlds of the handlers *)

(** The requests of the two loaders, before the interceptor. *)
Definition langs_request : request :=
  {| method := GET; baseURL := defaults_baseURL; url := "/api/langs";
     data := NoBody; headers := ∅; responseType := None |}.

Definition history_request : request :=
  {| method := GET; baseURL := defaults_baseURL; url := "/api/qa-history";
     data := NoBody; headers := ∅; responseType := None |}.

(** The world right after the token is stored and the two flags are set. *)
Definition logged_in_with (tok : value) (w : World) : World :=
  with_react (upd_showLogin false)
    (with_react (upd_isLoggedIn true)
       (with_storage (insert "auth_token" (to_String tok)) w)).

(** Whether an event stores a token (a login response with a truthy
    [token]) or removes it (logout). *)
Definition stores_token (ev : event) (w : World) : bool :=
  match ev with
  | Settle id (Fulfilled d) =>
      match in_flight w !! id with
      | Some AfterLogin =>
          match get_field d "token" with
          | Some tok => truthy tok
          | None => false
          end
      | _ => false
      end
  | _ => false
  end.

Definition removes_token (ev : event) : bool :=
  match ev with
  | NavLogout => true
  | _ => false
  end.

(** The world once the response to request [id] has been taken up. *)
Definition settled (id : nat) (w : World) : World :=
  {| react := react w; localStorage := localStorage w;
     in_flight := delete id (in_flight w); next_id := next_id w;
     blob_urls := blob_urls w; next_url := next_url w |}.

(** [fetchLangs(); fetchHistory();] *)
Definition load (w : World) : World := enqueue AfterHistory (enqueue AfterLangs w).

Definition loaders (w : World) : list effect :=
  [Send (next_id w) (authorize (localStorage w) langs_request);
   Send (S (next_id w)) (authorize (localStorage w) history_request)].

(** The requests of the four click handlers, before the interceptor. *)
Definition login_request (u p : string) : request :=
  {| method := POST; baseURL := defaults_baseURL; url := "/api/login";
     data := JsonBody (VObj [("username", VStr u); ("password", VStr p)]);
     headers := ∅; responseType := None |}.

Definition upload_request (f : File) : request :=
  {| method := POST; baseURL := defaults_baseURL; url := "/api/upload";
     data := FormData [("file", f)];
     headers := {["Content-Type" := "multipart/form-data"]};
     responseType := None |}.

Definition answer_request (q : string) : request :=
  {| method := POST; baseURL := defaults_baseURL; url := "/api/answer";
     data := JsonBody (VObj [("question", VStr q)]);
     headers := ∅; responseType := None |}.

Definition audiobook_request (code : string) : request :=
  {| method := POST; baseURL := defaults_baseURL; url := "/api/audiobook";
     data := JsonBody (VObj [("lang_code", VStr code)]);
     headers := ∅; responseType := Some "blob" |}.

(** The world after [createObjectURL] and [setAudioUrl]. *)
Definition fresh_url (w : World) : string := "blob:" +:+ pretty (next_url w).

Definition with_audio (d : value) (w : World) : World :=
  with_react (upd_audioUrl (Some (fresh_url w)))
    {| react := react w; localStorage := localStorage w;
       in_flight := in_flight w; next_id := next_id w;
       blob_urls := <[fresh_url w :=
                        {| blob_bytes := blob_part d; blob_type := "audio/mpeg" |}]>
                      (blob_urls w);
       next_url := S (next_url w) |}.

(** ** Runs *)

(** No event of the run stores or removes the token. *)
Fixpoint token_kept (evs : list event) (w : World) : bool :=
  match evs with
  | [] => true
  | ev :: rest =>
      negb (stores_token ev w) && negb (removes_token ev)
      && token_kept rest (step ev w).1
  end.

(** No event of the run stores a token. *)
Fixpoint no_token_stored (evs : list event) (w : World) : bool :=
  match evs with
  | [] => true
  | ev :: rest => negb (stores_token ev w) && no_token_stored rest (step ev w).1
  end.

(** ** Flows and their required input *)

(** The flows of C2 and the input each one needs. *)
Inductive flow := Login | Upload | Ask | GenerateAudio.

Definition click (f : flow) : event :=
  match f with
  | Login => ClickLogin
  | Upload => ClickUpload
  | Ask => ClickGetAnswer
  | GenerateAudio => ClickGenerateAudio
  end.

Definition required_input_empty (f : flow) (st : AppState) : bool :=
  match f with
  | Login => negb (truthy_str (username st)) || negb (truthy_str (password st))
  | Upload => match file st with None => true | Some _ => false end
  | Ask => negb (truthy_str (question st))
  | GenerateAudio => negb (truthy_str (selectedLang st))
  end.

(** What C2 asks of a flow invoked in world [w]: no request, and an alert. *)
Definition fails_fast (f : flow) (w : World) : Prop :=
  requests (step (click f) w).2 = [] ∧ alerts (step (click f) w).2 ≠ [].

(** The alert of each guard in the source. *)
Definition validation_message (f : flow) : option string :=
  match f with
  | Login => Some "Please enter username & password"
  | Upload => Some "Pick a file first!"
  | Ask => Some "Enter a question"
  | GenerateAudio => None
  end.

(** A session in which the server's catalog has an entry under the empty
    code and the user selects it. *)
Definition empty_code_session : list event :=
  [UsernameChange "admin"; PasswordChange "1234"; ClickLogin;
   Settle 0 (Fulfilled (VObj [("token", VStr "abc")]));
   Settle 1 (Fulfilled (VObj [("langs", VObj [("", VStr "Auto"); ("en", VStr "English")])]));
   LangChange ""].

(** ** Response bodies without the expected key *)

(** [null] and [undefined]: the bodies on which a property read throws. *)
Definition nullish (d : value) : bool :=
  match d with
  | VUndefined | VNull => true
  | _ => false
  end.

(** Whether a body is an object with an own property [k]. *)
Definition has_key (k : string) (d : value) : bool :=
  match d with
  | VObj props => match own_prop k props with Some _ => true | None => false end
  | _ => false
  end.

(** ** Concrete sessions *)

(** The login of the administrator against a server that answers
    [{token: "abc"}]. *)
Definition admin_login : list event :=
  [UsernameChange "admin"; PasswordChange "1234"; ClickLogin;
   Settle 0 (Fulfilled (VObj [("token", VStr "abc")]))].

(** How many of the requests go to a path. *)
Definition count_to (path : string) (rs : list request) : nat :=
  length (filter (λ r, url r = path) rs).

(** The login form filled in and submitted; the response is still out. *)
Definition login_pending : World :=
  (run [UsernameChange "admin"; PasswordChange "1234"; ClickLogin] (init ∅)).1.

Definition token_abc : value := VObj [("token", VStr "abc")].

(** Logged in as in [admin_login]; the four loader requests are out. *)
Definition admin_world : World := (run admin_login (init ∅)).1.

Definition ask_about_document : list event :=
  [QuestionChange "What is this document about?"; ClickGetAnswer;
   Settle 5 (Fulfilled (VObj [("answer", VStr "It is a summary.")]))].

(** A page load with a token left by an earlier session, the form filled. *)
Definition stale_token_world : World :=
  (run [UsernameChange "admin"; PasswordChange "1234"]
     (init {["auth_token" := "stale"]})).1.

Definition asking_world : World :=
  (run (admin_login ++ [QuestionChange "What is this document about?"]) (init ∅)).1.

Definition unsorted_pairs : list value :=
  [VArr [VStr "q2"; VStr "a2"]; VArr [VStr "q1"; VStr "a1"];
   VArr [VStr "q2"; VStr "a2"]].

(** The catalog has been loaded once; the request of the second
    [fetchLangs] of the login is still out. *)
Definition catalog_loaded : World :=
  (run (admin_login ++
        [Settle 1 (Fulfilled (VObj [("langs", VObj [("en", VStr "English")])]))])
     (init ∅)).1.

Definition mp3 (bytes : string) : value :=
  VBlob {| blob_bytes := bytes; blob_type := "audio/mpeg" |}.

(** Two generations overlapping: both requests are out before either
    response arrives, and the responses come back in the other order. *)
Definition overlapping_audio : list event :=
  admin_login ++
  [ClickGenerateAudio; ClickGenerateAudio;
   Settle 6 (Fulfilled (mp3 "second")); Settle 5 (Fulfilled (mp3 "first"))].

(** * The transition function in closed form

    What a step does, written without the command monad: the world and the
    effects of each continuation and of each handler, and when the effect on
    [isLoggedIn] fires.  [step_unfolds] proves it equal to [step]. *)

Definition type_error (d : value) : error :=
  TypeError ("Cannot read properties of " +:+ to_String d).

Definition resume_result (k : continuation) (res : response) (w : World)
    : World * list effect :=
  match k with
  | AfterLangs =>
      match res with
      | Fulfilled d =>
          match get_field d "langs" with
          | Some l => (with_react (upd_langs (or_else l (VObj []))) w, [])
          | None => (w, [ConsoleError (Some "Error fetching langs:") (type_error d)])
          end
      | Rejected e => (w, [ConsoleError (Some "Error fetching langs:") e])
      end
  | AfterHistory =>
      match res with
      | Fulfilled d =>
          match get_field d "qa_pairs" with
          | Some l => (with_react (upd_qaHistory (or_else l (VArr []))) w, [])
          | None => (w, [ConsoleError (Some "Error fetching history:") (type_error d)])
          end
      | Rejected e => (w, [ConsoleError (Some "Error fetching history:") e])
      end
  | AfterLogin =>
      match res with
      | Fulfilled d =>
          match get_field d "token" with
          | Some tok =>
              if truthy tok
              then (load (logged_in_with tok w), loaders (logged_in_with tok w))
              else (w, [Alert "Invalid credentials"])
          | None =>
              (w, [Alert "Login failed. Check your credentials.";
                   ConsoleError None (type_error d)])
          end
      | Rejected e =>
          (w, [Alert "Login failed. Check your credentials."; ConsoleError None e])
      end
  | AfterUpload f =>
      match res with
      | Fulfilled _ =>
          (enqueue AfterHistory (with_react (upd_filename (Some (file_name f))) w),
           [Send (next_id w) (authorize (localStorage w) history_request);
            Alert "✅ File uploaded successfully!"])
      | Rejected e =>
          (w, [ConsoleError (Some "Upload failed:") e;
               Alert "Upload failed — check backend logs."])
      end
  | AfterAnswer =>
      match res with
      | Fulfilled d =>
          match get_field d "answer" with
          | Some a =>
              (enqueue AfterHistory (with_react (upd_answer a) w),
               [Send (next_id w) (authorize (localStorage w) history_request)])
          | None =>
              (w, [ConsoleError (Some "Ask failed:") (type_error d);
                   Alert "Failed to get answer"])
          end
      | Rejected e =>
          (w, [ConsoleError (Some "Ask failed:") e; Alert "Failed to get answer"])
      end
  | AfterAudiobook =>
      match res with
      | Fulfilled d => (with_audio d w, [Alert "🎧 Audio generated successfully!"])
      | Rejected e =>
          (w, [ConsoleError (Some "Audio generation failed:") e;
               Alert "Audio generation failed — check backend logs."])
      end
  end.

(** The React state [handleLogout] leaves. *)
Definition logged_out (st : AppState) : AppState :=
  upd_answer (VStr "") (upd_audioUrl None (upd_qaHistory (VArr [])
    (upd_showLogin true (upd_isLoggedIn false st)))).

Definition handle_result (ev : event) (w : World) : World * list effect :=
  match ev with
  | NavLogin => (with_react (upd_showLogin true) w, [])
  | NavLogout => (with_react logged_out (with_storage (delete "auth_token") w), [])
  | DragOverCard => (with_react (upd_dragOver true) w, [])
  | DragLeaveCard => (with_react (upd_dragOver false) w, [])
  | DropOnCard files =>
      (match files with
       | f :: _ => with_react (upd_file (Some f)) (with_react (upd_dragOver false) w)
       | [] => with_react (upd_dragOver false) w
       end, [])
  | FileInputChange files => (with_react (upd_file (head files)) w, [])
  | ClickUpload =>
      match file (react w) with
      | None => (w, [Alert "Pick a file first!"])
      | Some f =>
          (enqueue (AfterUpload f) w,
           [Send (next_id w) (authorize (localStorage w) (upload_request f))])
      end
  | QuestionChange s => (with_react (upd_question s) w, [])
  | ClickGetAnswer =>
      if negb (truthy_str (question (react w)))
      then (w, [Alert "Enter a question"])
      else (enqueue AfterAnswer w,
            [Send (next_id w)
               (authorize (localStorage w) (answer_request (question (react w))))])
  | LangChange code => (with_react (upd_selectedLang code) w, [])
  | ClickGenerateAudio =>
      (enqueue AfterAudiobook w,
       [Send (next_id w)
          (authorize (localStorage w) (audiobook_request (selectedLang (react w))))])
  | UsernameChange s => (with_react (upd_username s) w, [])
  | PasswordChange s => (with_react (upd_password s) w, [])
  | ClickLogin =>
      if negb (truthy_str (username (react w))) || negb (truthy_str (password (react w)))
      then (w, [Alert "Please enter username & password"])
      else (enqueue AfterLogin w,
            [Send (next_id w)
               (authorize (localStorage w)
                  (login_request (username (react w)) (password (react w))))])
  | CloseLogin => (with_react (upd_showLogin false) w, [])
  | Settle id res =>
      match in_flight w !! id with
      | Some k => resume_result k res (settled id w)
      | None => (settled id w, [])
      end
  end.

(** The effect fires in the step of a login response that stores a token
    while the component is logged out, and in no other. *)
Definition step_result (ev : event) (w : World) : World * list effect :=
  if stores_token ev w && negb (isLoggedIn (react w))
  then (load (handle_result ev w).1,
        (handle_result ev w).2 ++ loaders (handle_result ev w).1)
  else handle_result ev w.

(** ** Invariants and tables of the further theorems *)

(** The login modal is open only over the logged-out page. *)
Definition modal_over_logged_out (w : World) : Prop :=
  showLogin (react w) = true → isLoggedIn (react w) = false.

(** While the component is logged in, a token is in the storage. *)
Definition token_behind_session (w : World) : Prop :=
  isLoggedIn (react w) = true → is_Some (localStorage w !! "auth_token").

(** The URL held in [audioUrl] is in the blob URL store, and every blob of
    the store is labelled [audio/mpeg]. *)
Definition audio_resolves (w : World) : Prop :=
  (∀ u, audioUrl (react w) = Some u → is_Some (blob_urls w !! u)) ∧
  map_Forall (λ _ b, blob_type b = "audio/mpeg") (blob_urls w).

(** Every request in flight was numbered before [next_id]. *)
Definition numbered_below (m : gmap nat continuation) (n : nat) : Prop :=
  map_Forall (λ i _, i < n) m.

Definition ids_fresh (w : World) : Prop :=
  numbered_below (in_flight w) (next_id w).

(** Whether an event is the settlement of request [id]. *)
Definition settles (id : nat) (ev : event) : bool :=
  match ev with
  | Settle i _ => Nat.eqb i id
  | _ => false
  end.

(** Whether an event is a change of the language [select]. *)
Definition selects_language (ev : event) : bool :=
  match ev with
  | LangChange _ => true
  | _ => false
  end.

(** Neither the catalog nor the history held in state is [null] or
    [undefined]. *)
Definition lists_defined (w : World) : Prop :=
  nullish (langs (react w)) = false ∧ nullish (qaHistory (react w)) = false.

(** Whether an event edits the username or the password field. *)
Definition edits_credentials (ev : event) : bool :=
  match ev with
  | UsernameChange _ | PasswordChange _ => true
  | _ => false
  end.

(** The responses after which the source calls [fetchHistory] outside a
    login: a fulfilled upload, and a fulfilled answer whose body can be
    read. *)
Definition refreshes_history (ev : event) (w : World) : bool :=
  match ev with
  | Settle id (Fulfilled d) =>
      match in_flight w !! id with
      | Some (AfterUpload _) => true
      | Some AfterAnswer => negb (nullish d)
      | _ => false
      end
  | _ => false
  end.

(** The six calls of the source, as a predicate on a request: the base URL,
    and per kind of body the method, the path, the payload, the
    [Content-Type] the component sets and the response type.  Credentials
    and question in a payload are non-empty. *)
Definition follows_api_table (r : request) : Prop :=
  baseURL r = "http://127.0.0.1:8000" ∧
  match data r with
  | NoBody =>
      method r = GET ∧ (url r = "/api/langs" ∨ url r = "/api/qa-history") ∧
      headers r !! "Content-Type" = None ∧ responseType r = None
  | FormData fields =>
      method r = POST ∧ url r = "/api/upload" ∧ (∃ f, fields = [("file", f)]) ∧
      headers r !! "Content-Type" = Some "multipart/form-data" ∧
      responseType r = None
  | JsonBody v =>
      method r = POST ∧ headers r !! "Content-Type" = None ∧
      ((∃ u p, url r = "/api/login" ∧
               v = VObj [("username", VStr u); ("password", VStr p)] ∧
               truthy_str u = true ∧ truthy_str p = true ∧
               responseType r = None) ∨
       (∃ q, url r = "/api/answer" ∧ v = VObj [("question", VStr q)] ∧
             truthy_str q = true ∧ responseType r = None) ∨
       (∃ c, url r = "/api/audiobook" ∧ v = VObj [("lang_code", VStr c)] ∧
             responseType r = Some "blob"))
  end.

(** The alert of the [catch] of each continuation; the loaders have none. *)
Definition failure_alert (k : continuation) : list string :=
  match k with
  | AfterLangs | AfterHistory => []
  | AfterLogin => ["Login failed. Check your credentials."]
  | AfterUpload _ => ["Upload failed — check backend logs."]
  | AfterAnswer => ["Failed to get answer"]
  | AfterAudiobook => ["Audio generation failed — check backend logs."]
  end.

(** The label of the [console.error] of each [catch]. *)
Definition failure_label (k : continuation) : option string :=
  match k with
  | AfterLangs => Some "Error fetching langs:"
  | AfterHistory => Some "Error fetching history:"
  | AfterLogin => None
  | AfterUpload _ => Some "Upload failed:"
  | AfterAnswer => Some "Ask failed:"
  | AfterAudiobook => Some "Audio generation failed:"
  end.

#[global] Instance ids_fresh_dec (w : World) : Decision (ids_fresh w) :=
  decide (map_Forall (λ i _, i < next_id w) (in_flight w)).

(** ** Further concrete sessions *)

Definition report_pdf : File :=
  {| file_name := "report.pdf"; file_bytes := "%PDF-1.7" |}.

Definition notes_txt : File :=
  {| file_name := "notes.txt"; file_bytes := "to do" |}.

(** Logged in, a file picked in the file input. *)
Definition file_selected : World :=
  (run (admin_login ++ [FileInputChange [report_pdf]]) (init ∅)).1.

(** Logged in, the question typed and sent. *)
Definition asked_world : World := (step ClickGetAnswer asking_world).1.

(** A page load over a storage that holds a key of some other script. *)
Definition themed_page : World := init {["theme" := "dark"]}.

Definition form_filled : World :=
  (run [UsernameChange "admin"; PasswordChange "1234"] (init ∅)).1.

Definition login_and_logout : list event :=
  [ClickLogin; Settle 0 (Fulfilled (VObj [("token", VStr "abc")])); NavLogout].

Definition audio_generated : list event :=
  admin_login ++ [ClickGenerateAudio; Settle 5 (Fulfilled (mp3 "ID3"))].

Definition french_catalog : list event :=
  admin_login ++
  [Settle 1 (Fulfilled (VObj [("langs", VObj [("fr", VStr "French")])]))].

(** * Theorems *)

(** ** JavaScript values *)

Example to_String_array :
  to_String (VArr [VNum 1; VNull; VStr "a"; VArr []]) = "1,,a,".
Proof. reflexivity. Qed.

Example empty_array_truthy : truthy (VArr []) = true /\ to_String (VArr []) = "".
Proof. split; reflexivity. Qed.

(** ** The interceptor and the dispatch *)

Lemma auth_interceptor_run config w :
  auth_interceptor config w = (Returned (authorize (localStorage w) config), w, []).
Proof.
  unfold auth_interceptor, authorize, bearer, localStorage_getItem.
  unfold mbind, Cmd_bind, cmd_bind, mret, Cmd_ret, cmd_ret.
  destruct (localStorage w !! "auth_token") as [t|]; [|reflexivity].
  destruct (truthy_str t); reflexivity.
Qed.

Lemma axios_request_run config k w :
  axios_request config k w =
  (Returned tt, enqueue k w, [Send (next_id w) (authorize (localStorage w) config)]).
Proof.
  unfold axios_request, mbind, Cmd_bind, cmd_bind.
  rewrite auth_interceptor_run. reflexivity.
Qed.

Lemma authorize_authorization storage config :
  headers config !! "Authorization" = None →
  authorization (authorize storage config) = bearer storage.
Proof.
  intros Hnone. unfold authorization, authorize.
  destruct (bearer storage) as [h|]; cbn.
  - apply lookup_insert_eq.
  - exact Hnone.
Qed.

Lemma requests_app out1 out2 :
  requests (out1 ++ out2) = requests out1 ++ requests out2.
Proof. apply omap_app. Qed.

Lemma alerts_app out1 out2 : alerts (out1 ++ out2) = alerts out1 ++ alerts out2.
Proof. apply omap_app. Qed.

(** ** Commands that leave the token alone *)

Create HintDb stable.

Lemma stable_ret {A} (a : A) : stable (mret a).
Proof. intros w. split; [reflexivity | constructor]. Qed.

Lemma stable_throw {A} e : stable (@throw A e).
Proof. intros w. split; [reflexivity | constructor]. Qed.

Lemma stable_at_bind {A B} (c : Cmd A) (k : A → Cmd B) w :
  stable_at c w →
  (∀ a w1, (c w).1 = (Returned a, w1) → stable_at (k a) w1) →
  stable_at (c ≫= k) w.
Proof.
  intros [Hs Hr] Hk. unfold stable_at, mbind, Cmd_bind, cmd_bind in *.
  destruct (c w) as [[[a|e] w1] out1]; cbn in Hs, Hr; [|by split].
  destruct (Hk a w1 eq_refl) as [Hs' Hr'].
  destruct (k a w1) as [[r w2] out2]; cbn in *.
  split; [congruence|].
  rewrite requests_app. apply Forall_app. split; [done|].
  by rewrite <- Hs.
Qed.

Lemma stable_bind {A B} (c : Cmd A) (k : A → Cmd B) :
  stable c → (∀ a, stable (k a)) → stable (c ≫= k).
Proof.
  intros Hc Hk w. apply stable_at_bind; [apply Hc|].
  intros a w1 _. apply Hk.
Qed.

Lemma stable_try_catch c h :
  stable c → (∀ e, stable (h e)) → stable (try_catch c h).
Proof.
  intros Hc Hh w. unfold stable_at, try_catch.
  destruct (Hc w) as [Hs Hr].
  destruct (c w) as [[[a|e] w1] out1]; cbn in Hs, Hr; [by split|].
  destruct (Hh e w1) as [Hs' Hr'].
  destruct (h e w1) as [[r w2] out2]; cbn in *.
  split; [congruence|].
  rewrite requests_app. apply Forall_app. split; [done|].
  by rewrite <- Hs.
Qed.

Lemma stable_quiet {A} (c : Cmd A) :
  (∀ w, localStorage (c w).1.2 = localStorage w ∧ (c w).2 = []) → stable c.
Proof.
  intros H w. destruct (H w) as [Hs Ho]. split; [done|].
  rewrite Ho. constructor.
Qed.

Lemma stable_get_state : stable get_state.
Proof. by apply stable_quiet. Qed.
Lemma stable_set_state f : stable (set_state f).
Proof. by apply stable_quiet. Qed.
Lemma stable_take_in_flight id : stable (take_in_flight id).
Proof. by apply stable_quiet. Qed.
Lemma stable_createObjectURL b : stable (createObjectURL b).
Proof. by apply stable_quiet. Qed.
Lemma stable_alert msg : stable (alert msg).
Proof. intros w. split; [reflexivity | constructor]. Qed.
Lemma stable_console_error l e : stable (console_error l e).
Proof. intros w. split; [reflexivity | constructor]. Qed.
Lemma stable_await res : stable (await res).
Proof. destruct res; [apply stable_ret | apply stable_throw]. Qed.
Lemma stable_field v k : stable (field v k).
Proof. unfold field. destruct (get_field v k); [apply stable_ret | apply stable_throw]. Qed.

Lemma stable_axios_request config k :
  headers config !! "Authorization" = None → stable (axios_request config k).
Proof.
  intros Hnone w. unfold stable_at. rewrite axios_request_run. cbn.
  split; [reflexivity|].
  repeat constructor. by apply authorize_authorization.
Qed.

Lemma stable_axios_get path k : stable (axios_get path k).
Proof. apply stable_axios_request. reflexivity. Qed.

Lemma stable_axios_post path payload hdrs rtype k :
  hdrs !! "Authorization" = None → stable (axios_post path payload hdrs rtype k).
Proof. intros H. by apply stable_axios_request. Qed.

#[export] Hint Resolve stable_ret stable_throw stable_get_state stable_set_state
  stable_take_in_flight stable_createObjectURL stable_alert stable_console_error
  stable_await stable_field stable_axios_get : stable.

(** Walk a command built from [≫=], [try_catch], [if] and [match]. *)
Ltac stable_walk :=
  repeat first
    [ solve [auto with stable]
    | apply stable_axios_post; reflexivity
    | apply stable_try_catch
    | apply stable_bind
    | match goal with |- ∀ _, _ => intro end
    | case_match ].

#[export] Hint Extern 1 (stable (setFile _)) => apply stable_set_state : stable.
#[export] Hint Extern 1 (stable (setFilename _)) => apply stable_set_state : stable.
#[export] Hint Extern 1 (stable (setQuestion _)) => apply stable_set_state : stable.
#[export] Hint Extern 1 (stable (setAnswer _)) => apply stable_set_state : stable.
#[export] Hint Extern 1 (stable (setQaHistory _)) => apply stable_set_state : stable.
#[export] Hint Extern 1 (stable (setLangs _)) => apply stable_set_state : stable.
#[export] Hint Extern 1 (stable (setSelectedLang _)) => apply stable_set_state : stable.
#[export] Hint Extern 1 (stable (setAudioUrl _)) => apply stable_set_state : stable.
#[export] Hint Extern 1 (stable (setDragOver _)) => apply stable_set_state : stable.
#[export] Hint Extern 1 (stable (setShowLogin _)) => apply stable_set_state : stable.
#[export] Hint Extern 1 (stable (setIsLoggedIn _)) => apply stable_set_state : stable.
#[export] Hint Extern 1 (stable (setUsername _)) => apply stable_set_state : stable.
#[export] Hint Extern 1 (stable (setPassword _)) => apply stable_set_state : stable.

Lemma stable_fetchLangs : stable fetchLangs.
Proof. apply stable_axios_get. Qed.

Lemma stable_fetchHistory : stable fetchHistory.
Proof. apply stable_axios_get. Qed.

#[export] Hint Resolve stable_fetchLangs stable_fetchHistory : stable.

Lemma stable_fetchLangs_resume res : stable (fetchLangs_resume res).
Proof. unfold fetchLangs_resume. stable_walk. Qed.

Lemma stable_fetchHistory_resume res : stable (fetchHistory_resume res).
Proof. unfold fetchHistory_resume. stable_walk. Qed.

Lemma stable_uploadFile_resume f res : stable (uploadFile_resume f res).
Proof. unfold uploadFile_resume. stable_walk. Qed.

Lemma stable_askQuestion_resume res : stable (askQuestion_resume res).
Proof. unfold askQuestion_resume. stable_walk. Qed.

Lemma stable_generateAudio_resume res : stable (generateAudio_resume res).
Proof. unfold generateAudio_resume. stable_walk. Qed.

Lemma stable_handleLogin : stable handleLogin.
Proof. unfold handleLogin. stable_walk. Qed.

Lemma stable_uploadFile : stable uploadFile.
Proof. unfold uploadFile. stable_walk. Qed.

Lemma stable_askQuestion : stable askQuestion.
Proof. unfold askQuestion. stable_walk. Qed.

Lemma stable_generateAudio : stable generateAudio.
Proof. unfold generateAudio. stable_walk. Qed.

Lemma stable_effect_isLoggedIn : stable effect_isLoggedIn.
Proof. unfold effect_isLoggedIn. stable_walk. Qed.

Lemma stable_commit prev : stable (commit prev).
Proof.
  unfold commit. apply stable_bind; [auto with stable|].
  intros st. destruct (Bool.eqb _ _); [auto with stable | apply stable_effect_isLoggedIn].
Qed.

#[export] Hint Resolve stable_fetchLangs_resume stable_fetchHistory_resume
  stable_uploadFile_resume stable_askQuestion_resume stable_generateAudio_resume
  stable_handleLogin stable_uploadFile stable_askQuestion stable_generateAudio
  stable_effect_isLoggedIn stable_commit : stable.

(** ** The two writers of the token *)

Lemma fetchLangs_run w :
  fetchLangs w =
  (Returned tt, enqueue AfterLangs w,
   [Send (next_id w) (authorize (localStorage w) langs_request)]).
Proof. apply axios_request_run. Qed.

Lemma fetchHistory_run w :
  fetchHistory w =
  (Returned tt, enqueue AfterHistory w,
   [Send (next_id w) (authorize (localStorage w) history_request)]).
Proof. apply axios_request_run. Qed.

Lemma handleLogin_resume_stored d tok w :
  get_field d "token" = Some tok → truthy tok = true →
  handleLogin_resume (Fulfilled d) w =
  (Returned tt,
   enqueue AfterHistory (enqueue AfterLangs (logged_in_with tok w)),
   [Send (next_id w)
      (authorize (<["auth_token" := to_String tok]> (localStorage w)) langs_request);
    Send (S (next_id w))
      (authorize (<["auth_token" := to_String tok]> (localStorage w)) history_request)]).
Proof.
  intros Hf Ht.
  unfold handleLogin_resume, try_catch, field, mbind, Cmd_bind, cmd_bind. cbn.
  rewrite Hf. cbn. rewrite Ht. cbn.
  rewrite fetchLangs_run, fetchHistory_run. reflexivity.
Qed.

Lemma handleLogin_resume_refused d tok w :
  get_field d "token" = Some tok → truthy tok = false →
  handleLogin_resume (Fulfilled d) w = (Returned tt, w, [Alert "Invalid credentials"]).
Proof.
  intros Hf Ht.
  unfold handleLogin_resume, try_catch, field, mbind, Cmd_bind, cmd_bind. cbn.
  rewrite Hf. cbn. rewrite Ht. reflexivity.
Qed.

Lemma handleLogin_resume_null d w :
  get_field d "token" = None →
  handleLogin_resume (Fulfilled d) w =
  (Returned tt, w,
   [Alert "Login failed. Check your credentials.";
    ConsoleError None (TypeError ("Cannot read properties of " +:+ to_String d))]).
Proof.
  intros Hf.
  unfold handleLogin_resume, try_catch, field, mbind, Cmd_bind, cmd_bind. cbn.
  rewrite Hf. reflexivity.
Qed.

Lemma handleLogin_resume_rejected e w :
  handleLogin_resume (Rejected e) w =
  (Returned tt, w,
   [Alert "Login failed. Check your credentials."; ConsoleError None e]).
Proof. reflexivity. Qed.

Lemma handleLogout_run w :
  handleLogout w =
  (Returned tt,
   with_react (λ st, upd_answer (VStr "") (upd_audioUrl None (upd_qaHistory (VArr [])
                (upd_showLogin true (upd_isLoggedIn false st)))))
     (with_storage (delete "auth_token") w),
   []).
Proof. reflexivity. Qed.

Lemma stable_handle ev w :
  stores_token ev w = false → removes_token ev = false →
  stable_at (handle ev) w.
Proof.
  intros Hst Hrm.
  destruct ev as [| | | | files | files | | s | | code | | s | s | | | id res];
    try discriminate Hrm; try (apply stable_set_state); auto with stable.
  - (* DropOnCard *)
    cbn [handle]. apply stable_bind; [auto with stable|].
    intros _. destruct files; auto with stable.
  - (* Settle *)
    cbn [handle].
    apply stable_at_bind; [apply stable_take_in_flight|].
    intros k w1 [= <- <-].
    cbn [stores_token] in Hst.
    destruct (in_flight w !! id) as [[| | |f| |]|]; cbn [resume].
    + apply stable_fetchLangs_resume.
    + apply stable_fetchHistory_resume.
    + (* AfterLogin: this response stores nothing *)
      unfold stable_at. destruct res as [d|e].
      * destruct (get_field d "token") as [tok|] eqn:Hf.
        -- rewrite (handleLogin_resume_refused d tok) by done.
           split; [done | constructor].
        -- rewrite handleLogin_resume_null by done. split; [done | constructor].
      * split; [done | constructor].
    + apply stable_uploadFile_resume.
    + apply stable_askQuestion_resume.
    + apply stable_generateAudio_resume.
    + apply stable_ret.
Qed.

(** ** Steps *)

Lemma step_stable ev w :
  stores_token ev w = false → removes_token ev = false →
  localStorage (step ev w).1 = localStorage w ∧
  Forall (λ r, authorization r = bearer (localStorage w)) (requests (step ev w).2).
Proof.
  intros Hst Hrm. unfold step.
  destruct (stable_handle ev w Hst Hrm) as [Hs Hr].
  destruct (handle ev w) as [[o w1] out1].
  destruct (stable_commit (react w) w1) as [Hs' Hr'].
  destruct (commit (react w) w1) as [[o2 w2] out2]. cbn in *.
  split; [congruence|].
  rewrite requests_app. apply Forall_app. split; [done|]. by rewrite <- Hs.
Qed.

Lemma load_run w : (fetchLangs;; fetchHistory) w = (Returned tt, load w, loaders w).
Proof.
  unfold mbind, Cmd_bind, cmd_bind.
  rewrite fetchLangs_run, fetchHistory_run. reflexivity.
Qed.

Lemma commit_run prev w :
  commit prev w =
  if Bool.eqb (isLoggedIn prev) (isLoggedIn (react w))
  then (Returned tt, w, [])
  else if isLoggedIn (react w)
       then (Returned tt, load w, loaders w)
       else (Returned tt, w, []).
Proof.
  unfold commit, effect_isLoggedIn, get_state.
  unfold mbind at 1, Cmd_bind at 1, cmd_bind at 1.
  destruct (Bool.eqb _ _); [reflexivity|].
  unfold mbind at 1, Cmd_bind at 1, cmd_bind at 1.
  destruct (isLoggedIn (react w)); [|reflexivity].
  rewrite load_run. reflexivity.
Qed.

Lemma step_logout w :
  step NavLogout w =
  (with_react (λ st, upd_answer (VStr "") (upd_audioUrl None (upd_qaHistory (VArr [])
                 (upd_showLogin true (upd_isLoggedIn false st)))))
     (with_storage (delete "auth_token") w),
   []).
Proof.
  unfold step. cbn [handle]. rewrite handleLogout_run, commit_run. cbn.
  destruct (isLoggedIn (react w)); reflexivity.
Qed.

Lemma handle_settle id res w :
  handle (Settle id res) w =
  match in_flight w !! id with
  | Some k => resume k res (settled id w)
  | None => (Returned tt, settled id w, [])
  end.
Proof.
  cbn [handle]. unfold mbind, Cmd_bind, cmd_bind, take_in_flight.
  fold (settled id w).
  destruct (in_flight w !! id) as [k|]; [|reflexivity].
  destruct (resume k res (settled id w)) as [[r w2] out2]. reflexivity.
Qed.

(** A login response that stores a token: the handler loads the catalog and
    the history itself, and the effect loads them again when [isLoggedIn]
    was false at the last render. *)
Lemma step_login_stored id d tok w :
  in_flight w !! id = Some AfterLogin →
  get_field d "token" = Some tok → truthy tok = true →
  step (Settle id (Fulfilled d)) w =
  let w1 := logged_in_with tok (settled id w) in
  if isLoggedIn (react w)
  then (load w1, loaders w1)
  else (load (load w1), loaders w1 ++ loaders (load w1)).
Proof.
  intros Hid Hf Ht. unfold step.
  rewrite handle_settle, Hid. cbn [resume].
  rewrite (handleLogin_resume_stored d tok) by done.
  rewrite commit_run. cbn.
  destruct (isLoggedIn (react w)); reflexivity.
Qed.

Lemma loaders_authorized w :
  Forall (λ r, authorization r = bearer (localStorage w)) (requests (loaders w)).
Proof. cbn. repeat constructor; by apply authorize_authorization. Qed.

(** Whatever the event: the requests of a step carry the header that the
    storage calls for when the step is over. *)
Lemma step_authorized ev w :
  Forall (λ r, authorization r = bearer (localStorage (step ev w).1))
    (requests (step ev w).2).
Proof.
  destruct (stores_token ev w) eqn:Hst.
  - destruct ev as [| | | | | | | | | | | | | | | id [d|e]]; try discriminate Hst.
    cbn [stores_token] in Hst.
    destruct (in_flight w !! id) as [[| | |f| |]|] eqn:Hid; try discriminate Hst.
    destruct (get_field d "token") as [tok|] eqn:Hf; [|discriminate Hst].
    rewrite (step_login_stored id d tok) by done. cbn zeta.
    destruct (isLoggedIn (react w)); cbn [fst snd].
    + exact (loaders_authorized (logged_in_with tok (settled id w))).
    + rewrite requests_app. apply Forall_app. split.
      * exact (loaders_authorized (logged_in_with tok (settled id w))).
      * exact (loaders_authorized (load (logged_in_with tok (settled id w)))).
  - destruct (removes_token ev) eqn:Hrm.
    + destruct ev; try discriminate Hrm. rewrite step_logout. constructor.
    + destruct (step_stable ev w Hst Hrm) as [Hs Hr]. by rewrite Hs.
Qed.

Lemma step_same_login ev w o w1 out :
  handle ev w = (o, w1, out) →
  isLoggedIn (react w1) = isLoggedIn (react w) →
  step ev w = (w1, out).
Proof.
  intros Hh Hl. unfold step. rewrite Hh, commit_run, Hl, Bool.eqb_reflx.
  by rewrite app_nil_r.
Qed.

(** ** The four click handlers, up to their [await] *)

Lemma handleLogin_run w :
  handleLogin w =
  if negb (truthy_str (username (react w))) || negb (truthy_str (password (react w)))
  then (Returned tt, w, [Alert "Please enter username & password"])
  else (Returned tt, enqueue AfterLogin w,
        [Send (next_id w)
           (authorize (localStorage w)
              (login_request (username (react w)) (password (react w))))]).
Proof.
  unfold handleLogin, get_state. unfold mbind, Cmd_bind, cmd_bind.
  destruct (negb _ || negb _).
  - reflexivity.
  - unfold axios_post. rewrite axios_request_run. reflexivity.
Qed.

Lemma uploadFile_run w :
  uploadFile w =
  match file (react w) with
  | None => (Returned tt, w, [Alert "Pick a file first!"])
  | Some f =>
      (Returned tt, enqueue (AfterUpload f) w,
       [Send (next_id w) (authorize (localStorage w) (upload_request f))])
  end.
Proof.
  unfold uploadFile, get_state. unfold mbind, Cmd_bind, cmd_bind.
  destruct (file (react w)) as [f|].
  - unfold axios_post. rewrite axios_request_run. reflexivity.
  - reflexivity.
Qed.

Lemma askQuestion_run w :
  askQuestion w =
  if negb (truthy_str (question (react w)))
  then (Returned tt, w, [Alert "Enter a question"])
  else (Returned tt, enqueue AfterAnswer w,
        [Send (next_id w)
           (authorize (localStorage w) (answer_request (question (react w))))]).
Proof.
  unfold askQuestion, get_state. unfold mbind, Cmd_bind, cmd_bind.
  destruct (negb _).
  - reflexivity.
  - unfold axios_post. rewrite axios_request_run. reflexivity.
Qed.

Lemma generateAudio_run w :
  generateAudio w =
  (Returned tt, enqueue AfterAudiobook w,
   [Send (next_id w)
      (authorize (localStorage w) (audiobook_request (selectedLang (react w))))]).
Proof.
  unfold generateAudio, get_state. unfold mbind, Cmd_bind, cmd_bind.
  unfold axios_post. rewrite axios_request_run. reflexivity.
Qed.

Lemma step_ClickLogin w :
  step ClickLogin w =
  if negb (truthy_str (username (react w))) || negb (truthy_str (password (react w)))
  then (w, [Alert "Please enter username & password"])
  else (enqueue AfterLogin w,
        [Send (next_id w)
           (authorize (localStorage w)
              (login_request (username (react w)) (password (react w))))]).
Proof.
  pose proof (handleLogin_run w) as H.
  destruct (negb _ || negb _); by apply (step_same_login ClickLogin w _ _ _ H).
Qed.

Lemma step_ClickUpload w :
  step ClickUpload w =
  match file (react w) with
  | None => (w, [Alert "Pick a file first!"])
  | Some f =>
      (enqueue (AfterUpload f) w,
       [Send (next_id w) (authorize (localStorage w) (upload_request f))])
  end.
Proof.
  pose proof (uploadFile_run w) as H.
  destruct (file (react w)); by apply (step_same_login ClickUpload w _ _ _ H).
Qed.

Lemma step_ClickGetAnswer w :
  step ClickGetAnswer w =
  if negb (truthy_str (question (react w)))
  then (w, [Alert "Enter a question"])
  else (enqueue AfterAnswer w,
        [Send (next_id w)
           (authorize (localStorage w) (answer_request (question (react w))))]).
Proof.
  pose proof (askQuestion_run w) as H.
  destruct (negb _); by apply (step_same_login ClickGetAnswer w _ _ _ H).
Qed.

Lemma step_ClickGenerateAudio w :
  step ClickGenerateAudio w =
  (enqueue AfterAudiobook w,
   [Send (next_id w)
      (authorize (localStorage w) (audiobook_request (selectedLang (react w))))]).
Proof. by apply (step_same_login ClickGenerateAudio w _ _ _ (generateAudio_run w)). Qed.

(** ** The continuations *)

Lemma step_settle id res w k o w1 out :
  in_flight w !! id = Some k →
  resume k res (settled id w) = (o, w1, out) →
  isLoggedIn (react w1) = isLoggedIn (react w) →
  step (Settle id res) w = (w1, out).
Proof.
  intros Hid Hres Hl. apply (step_same_login (Settle id res) w o); [|done].
  by rewrite handle_settle, Hid.
Qed.

Lemma step_settle_unknown id res w :
  in_flight w !! id = None → step (Settle id res) w = (settled id w, []).
Proof.
  intros Hid. apply (step_same_login (Settle id res) w (Returned tt)); [|done].
  by rewrite handle_settle, Hid.
Qed.

Lemma fetchLangs_resume_rejected e w :
  fetchLangs_resume (Rejected e) w =
  (Returned tt, w, [ConsoleError (Some "Error fetching langs:") e]).
Proof. reflexivity. Qed.

Lemma fetchLangs_resume_fulfilled d w :
  fetchLangs_resume (Fulfilled d) w =
  match get_field d "langs" with
  | Some l => (Returned tt, with_react (upd_langs (or_else l (VObj []))) w, [])
  | None =>
      (Returned tt, w,
       [ConsoleError (Some "Error fetching langs:")
          (TypeError ("Cannot read properties of " +:+ to_String d))])
  end.
Proof.
  unfold fetchLangs_resume, try_catch, field, mbind, Cmd_bind, cmd_bind. cbn.
  destruct (get_field d "langs"); reflexivity.
Qed.

Lemma fetchHistory_resume_rejected e w :
  fetchHistory_resume (Rejected e) w =
  (Returned tt, w, [ConsoleError (Some "Error fetching history:") e]).
Proof. reflexivity. Qed.

Lemma fetchHistory_resume_fulfilled d w :
  fetchHistory_resume (Fulfilled d) w =
  match get_field d "qa_pairs" with
  | Some l => (Returned tt, with_react (upd_qaHistory (or_else l (VArr []))) w, [])
  | None =>
      (Returned tt, w,
       [ConsoleError (Some "Error fetching history:")
          (TypeError ("Cannot read properties of " +:+ to_String d))])
  end.
Proof.
  unfold fetchHistory_resume, try_catch, field, mbind, Cmd_bind, cmd_bind. cbn.
  destruct (get_field d "qa_pairs"); reflexivity.
Qed.

Lemma askQuestion_resume_rejected e w :
  askQuestion_resume (Rejected e) w =
  (Returned tt, w,
   [ConsoleError (Some "Ask failed:") e; Alert "Failed to get answer"]).
Proof. reflexivity. Qed.

Lemma askQuestion_resume_fulfilled d w :
  askQuestion_resume (Fulfilled d) w =
  match get_field d "answer" with
  | Some a =>
      (Returned tt, enqueue AfterHistory (with_react (upd_answer a) w),
       [Send (next_id w) (authorize (localStorage w) history_request)])
  | None =>
      (Returned tt, w,
       [ConsoleError (Some "Ask failed:")
          (TypeError ("Cannot read properties of " +:+ to_String d));
        Alert "Failed to get answer"])
  end.
Proof.
  unfold askQuestion_resume, try_catch, field, mbind, Cmd_bind, cmd_bind. cbn.
  destruct (get_field d "answer"); [|reflexivity]. cbn.
  rewrite fetchHistory_run. reflexivity.
Qed.

Lemma generateAudio_resume_fulfilled d w :
  generateAudio_resume (Fulfilled d) w =
  (Returned tt, with_audio d w, [Alert "🎧 Audio generated successfully!"]).
Proof. reflexivity. Qed.

Lemma generateAudio_resume_rejected e w :
  generateAudio_resume (Rejected e) w =
  (Returned tt, w,
   [ConsoleError (Some "Audio generation failed:") e;
    Alert "Audio generation failed — check backend logs."]).
Proof. reflexivity. Qed.

Lemma uploadFile_resume_fulfilled f d w :
  uploadFile_resume f (Fulfilled d) w =
  (Returned tt,
   enqueue AfterHistory (with_react (upd_filename (Some (file_name f))) w),
   [Send (next_id w) (authorize (localStorage w) history_request);
    Alert "✅ File uploaded successfully!"]).
Proof.
  unfold uploadFile_resume, try_catch, mbind, Cmd_bind, cmd_bind. cbn.
  rewrite fetchHistory_run. reflexivity.
Qed.

Lemma uploadFile_resume_rejected f e w :
  uploadFile_resume f (Rejected e) w =
  (Returned tt, w,
   [ConsoleError (Some "Upload failed:") e;
    Alert "Upload failed — check backend logs."]).
Proof. reflexivity. Qed.

(** ** Runs *)

Lemma run_cons ev rest w :
  run (ev :: rest) w =
  ((run rest (step ev w).1).1, (step ev w).2 ++ (run rest (step ev w).1).2).
Proof.
  cbn [run]. destruct (step ev w) as [w1 out1]. cbn.
  destruct (run rest w1) as [w2 out2]. reflexivity.
Qed.

Lemma bearer_absent storage : storage !! "auth_token" = None → bearer storage = None.
Proof. intros H. unfold bearer. by rewrite H. Qed.

Lemma bearer_present storage t :
  storage !! "auth_token" = Some t → truthy_str t = true →
  bearer storage = Some ("Bearer " +:+ t).
Proof. intros H Ht. unfold bearer. by rewrite H, Ht. Qed.

Lemma run_token_kept evs w :
  token_kept evs w = true →
  localStorage (run evs w).1 = localStorage w ∧
  Forall (λ r, authorization r = bearer (localStorage w)) (requests (run evs w).2).
Proof.
  revert w. induction evs as [|ev rest IH]; intros w Hk.
  - split; [reflexivity | constructor].
  - cbn [token_kept] in Hk.
    apply andb_prop in Hk as [Hk Hrest]. apply andb_prop in Hk as [Hst Hrm].
    apply negb_true_iff in Hst, Hrm.
    destruct (step_stable ev w Hst Hrm) as [Hs Hr].
    destruct (IH _ Hrest) as [Hs' Hr'].
    rewrite run_cons. cbn [fst snd]. split; [congruence|].
    rewrite requests_app. apply Forall_app. split; [done|]. by rewrite <- Hs.
Qed.

Lemma run_no_token evs w :
  localStorage w !! "auth_token" = None →
  no_token_stored evs w = true →
  localStorage (run evs w).1 !! "auth_token" = None ∧
  Forall (λ r, authorization r = None) (requests (run evs w).2).
Proof.
  revert w. induction evs as [|ev rest IH]; intros w Hnone Hk.
  - split; [done | constructor].
  - cbn [no_token_stored] in Hk. apply andb_prop in Hk as [Hst Hrest].
    apply negb_true_iff in Hst.
    assert (localStorage (step ev w).1 !! "auth_token" = None ∧
            Forall (λ r, authorization r = None) (requests (step ev w).2))
      as [Hs Hr].
    { destruct (removes_token ev) eqn:Hrm.
      - destruct ev; try discriminate Hrm. rewrite step_logout. cbn.
        split; [apply lookup_delete_eq | constructor].
      - destruct (step_stable ev w Hst Hrm) as [Hs Hr].
        rewrite Hs. split; [done|]. by rewrite (bearer_absent _ Hnone) in Hr. }
    destruct (IH _ Hs Hrest) as [Hs' Hr'].
    rewrite run_cons. cbn [fst snd]. split; [done|].
    rewrite requests_app. apply Forall_app. by split.
Qed.

(** * The session token *)

(** C1. After a login response whose token [t] is stored, every request
    carries [Authorization: Bearer t] with exactly that token: the ones the
    login step itself issues and the ones of any later run in which the
    token is neither replaced nor removed.  After logout the token is gone
    from the storage, and no request carries an [Authorization] header in
    any later run in which no login stores a token again. *)
Theorem bearer_after_login_none_after_logout
    (w : World) (id : nat) (d : value) (t : string) (evs : list event)
    (w' : World) (evs' : list event) :
  in_flight w !! id = Some AfterLogin →
  get_field d "token" = Some (VStr t) →
  truthy (VStr t) = true →
  token_kept evs (step (Settle id (Fulfilled d)) w).1 = true →
  no_token_stored evs' (step NavLogout w').1 = true →
  let logged_in := step (Settle id (Fulfilled d)) w in
  let logged_out := step NavLogout w' in
  (localStorage logged_in.1 !! "auth_token" = Some t ∧
   Forall (λ r, authorization r = Some ("Bearer " +:+ t))
     (requests logged_in.2 ++ requests (run evs logged_in.1).2)) ∧
  (localStorage logged_out.1 !! "auth_token" = None ∧
   Forall (λ r, authorization r = None) (requests (run evs' logged_out.1).2)).
Proof.
  intros Hid Hf Ht Hkept Hnone. cbn zeta. split.
  - assert (localStorage (step (Settle id (Fulfilled d)) w).1 !! "auth_token" = Some t)
      as Hstored.
    { rewrite (step_login_stored id d (VStr t)) by done. cbn zeta.
      destruct (isLoggedIn (react w)); cbn; apply lookup_insert_eq. }
    split; [done|].
    apply Forall_app. split.
    + rewrite <- (bearer_present _ t Hstored Ht). apply step_authorized.
    + destruct (run_token_kept _ _ Hkept) as [_ Hr].
      by rewrite (bearer_present _ t Hstored Ht) in Hr.
  - assert (localStorage (step NavLogout w').1 !! "auth_token" = None) as Hgone.
    { rewrite step_logout. cbn. apply lookup_delete_eq. }
    split; [done|].
    by destruct (run_no_token _ _ Hgone Hnone).
Qed.

(** C10. The interceptor makes no exception for any endpoint.  When a
    token [t] is in the storage as login is invoked, the POST to
    [/api/login] is the one request issued and it carries
    [Authorization: Bearer t]; and whatever the event and the world, each
    request of the step carries the header the storage calls for. *)
Theorem login_request_carries_stored_token
    (w : World) (t : string) (ev : event) (w' : World) :
  localStorage w !! "auth_token" = Some t →
  truthy_str t = true →
  truthy_str (username (react w)) = true →
  truthy_str (password (react w)) = true →
  (step ClickLogin w).2 =
    [Send (next_id w)
       {| method := POST; baseURL := "http://127.0.0.1:8000"; url := "/api/login";
          data := JsonBody (VObj [("username", VStr (username (react w)));
                                  ("password", VStr (password (react w)))]);
          headers := {["Authorization" := "Bearer " +:+ t]};
          responseType := None |}] ∧
  Forall (λ r, authorization r = bearer (localStorage (step ev w').1))
    (requests (step ev w').2).
Proof.
  intros Htok Ht Hu Hp. split; [|apply step_authorized].
  rewrite step_ClickLogin, Hu, Hp. cbn [negb orb snd].
  unfold authorize. rewrite (bearer_present _ t Htok Ht).
  unfold login_request. cbn. by rewrite insert_empty.
Qed.

(** C4. Logout removes the token from the storage, empties the history,
    the answer and the audio reference, leaves the component logged out with
    the login modal open, and emits nothing: no request, no alert. *)
Theorem logout_clears_session (w : World) :
  let after := step NavLogout w in
  localStorage after.1 = delete "auth_token" (localStorage w) ∧
  localStorage after.1 !! "auth_token" = None ∧
  qaHistory (react after.1) = VArr [] ∧
  answer (react after.1) = VStr "" ∧
  audioUrl (react after.1) = None ∧
  isLoggedIn (react after.1) = false ∧
  showLogin (react after.1) = true ∧
  render (react after.1) =
    {| nav := LoginButton; main_content := false; login_modal := true;
       audio_src := None |} ∧
  after.2 = [].
Proof.
  cbn zeta. rewrite step_logout. cbn.
  repeat split. apply lookup_delete_eq.
Qed.

(** * Validation before the request *)

(** C2 fails for [generateAudio]: reached through rendered controls only,
    the world has an empty language code selected, and the click issues the
    request to [/api/audiobook] all the same. *)
Lemma generateAudio_sends_empty_code :
  possible empty_code_session (init ∅) = true ∧
  required_input_empty GenerateAudio (react (run empty_code_session (init ∅)).1) = true ∧
  ¬ fails_fast GenerateAudio (run empty_code_session (init ∅)).1.
Proof.
  split; [by vm_compute|]. split; [by vm_compute|].
  intros [Hreq _]. rewrite step_ClickGenerateAudio in Hreq. discriminate Hreq.
Qed.

(** C2, amended.  Login, upload and ask check their input first: with the
    required input empty the step is the validation alert alone, the world
    unchanged and no request issued.  [generateAudio] has no such check: it
    always issues its one request, with the selected code as it is, and
    alerts nothing before the response. *)
Theorem guarded_flows_fail_fast (f : flow) (w w' : World) :
  f ≠ GenerateAudio →
  required_input_empty f (react w) = true →
  (∃ msg, validation_message f = Some msg ∧ step (click f) w = (w, [Alert msg])) ∧
  fails_fast f w ∧
  step (click GenerateAudio) w' =
    (enqueue AfterAudiobook w',
     [Send (next_id w')
        (authorize (localStorage w') (audiobook_request (selectedLang (react w'))))]).
Proof.
  intros Hf Hempty.
  assert (∃ msg, validation_message f = Some msg ∧ step (click f) w = (w, [Alert msg]))
    as (msg & Hmsg & Hstep).
  { destruct f; cbn [click validation_message required_input_empty] in *.
    - eexists. split; [reflexivity|]. by rewrite step_ClickLogin, Hempty.
    - eexists. split; [reflexivity|]. rewrite step_ClickUpload.
      by destruct (file (react w)).
    - eexists. split; [reflexivity|]. by rewrite step_ClickGetAnswer, Hempty.
    - done. }
  split; [by exists msg|]. split.
  - unfold fails_fast. rewrite Hstep. by cbn.
  - apply step_ClickGenerateAudio.
Qed.

(** * The loaders *)

(** C3. [fetchHistory] puts a GET to [/api/qa-history] in flight; when its
    response arrives with a [qa_pairs] list [L], the history held in state
    is exactly [L], whatever was held before: the step changes nothing else
    in the React state and emits nothing. *)
Theorem fetchHistory_replaces_wholesale
    (w0 w : World) (id : nat) (d : value) (L : list value) :
  in_flight w !! id = Some AfterHistory →
  get_field d "qa_pairs" = Some (VArr L) →
  let after := step (Settle id (Fulfilled d)) w in
  qaHistory (react after.1) = VArr L ∧
  react after.1 = upd_qaHistory (VArr L) (react w) ∧
  after.2 = [] ∧
  in_flight (fetchHistory w0).1.2 !! next_id w0 = Some AfterHistory ∧
  (fetchHistory w0).2 =
    [Send (next_id w0) (authorize (localStorage w0) history_request)].
Proof.
  intros Hid Hf. cbn zeta.
  rewrite (step_settle id (Fulfilled d) w AfterHistory (Returned tt)
             (with_react (upd_qaHistory (VArr L)) (settled id w)) []); try done.
  - rewrite fetchHistory_run. cbn. repeat split. apply lookup_insert_eq.
  - cbn [resume]. by rewrite fetchHistory_resume_fulfilled, Hf.
Qed.

(** C8. A loader whose request fails logs the failure with
    [console.error] and does nothing else: no alert, no request, and the
    React state (catalog and history included) is what it was. *)
Theorem loader_failure_is_silent
    (w : World) (id : nat) (w' : World) (id' : nat) (e : error) :
  in_flight w !! id = Some AfterLangs →
  in_flight w' !! id' = Some AfterHistory →
  let langs_failed := step (Settle id (Rejected e)) w in
  let history_failed := step (Settle id' (Rejected e)) w' in
  (langs_failed.2 = [ConsoleError (Some "Error fetching langs:") e] ∧
   alerts langs_failed.2 = [] ∧
   react langs_failed.1 = react w ∧
   langs (react langs_failed.1) = langs (react w)) ∧
  (history_failed.2 = [ConsoleError (Some "Error fetching history:") e] ∧
   alerts history_failed.2 = [] ∧
   react history_failed.1 = react w' ∧
   qaHistory (react history_failed.1) = qaHistory (react w')).
Proof.
  intros Hid Hid'. cbn zeta.
  rewrite (step_settle id (Rejected e) w AfterLangs (Returned tt)
             (settled id w) [ConsoleError (Some "Error fetching langs:") e]);
    try done.
  rewrite (step_settle id' (Rejected e) w' AfterHistory (Returned tt)
             (settled id' w') [ConsoleError (Some "Error fetching history:") e]);
    try done.
Qed.

Lemma get_field_lacking d k :
  nullish d = false → has_key k d = false → get_field d k = Some VUndefined.
Proof.
  destruct d as [| | | | |items|props|b]; try done.
  cbn. by destruct (own_prop k props).
Qed.

(** C9 fails on a [null] body: it has no [langs] key, yet reading the key
    throws, the [catch] of the loader logs the TypeError, and the catalog
    loaded before stays in place instead of becoming empty. *)
Lemma null_body_keeps_old_catalog :
  in_flight catalog_loaded !! 3 = Some AfterLangs ∧
  has_key "langs" VNull = false ∧
  let after := step (Settle 3 (Fulfilled VNull)) catalog_loaded in
  langs (react after.1) = VObj [("en", VStr "English")] ∧
  langs (react after.1) ≠ VObj [] ∧
  after.2 = [ConsoleError (Some "Error fetching langs:")
               (TypeError "Cannot read properties of null")].
Proof. repeat split; by vm_compute. Qed.

(** C9, amended.  A loader response whose body is not [null] and has no
    own property of the expected name is not an error: nothing is logged or
    alerted, and the catalog becomes the empty object, the history the empty
    array, whatever they were.  On a [null] body the read throws and the
    loader's [catch] logs it, the old value staying in place. *)
Theorem loader_missing_field_resets
    (w : World) (id : nat) (d : value) (w' : World) (id' : nat) (d' : value) :
  in_flight w !! id = Some AfterLangs →
  nullish d = false → has_key "langs" d = false →
  in_flight w' !! id' = Some AfterHistory →
  nullish d' = false → has_key "qa_pairs" d' = false →
  let langs_loaded := step (Settle id (Fulfilled d)) w in
  let history_loaded := step (Settle id' (Fulfilled d')) w' in
  let langs_null := step (Settle id (Fulfilled VNull)) w in
  let history_null := step (Settle id' (Fulfilled VNull)) w' in
  (langs (react langs_loaded.1) = VObj [] ∧ langs_loaded.2 = []) ∧
  (qaHistory (react history_loaded.1) = VArr [] ∧ history_loaded.2 = []) ∧
  (react langs_null.1 = react w ∧
   langs_null.2 = [ConsoleError (Some "Error fetching langs:")
                     (TypeError "Cannot read properties of null")]) ∧
  (react history_null.1 = react w' ∧
   history_null.2 = [ConsoleError (Some "Error fetching history:")
                       (TypeError "Cannot read properties of null")]).
Proof.
  intros Hid Hn Hk Hid' Hn' Hk'. cbn zeta.
  rewrite (step_settle id (Fulfilled d) w AfterLangs (Returned tt)
             (with_react (upd_langs (VObj [])) (settled id w)) []); try done.
  - rewrite (step_settle id' (Fulfilled d') w' AfterHistory (Returned tt)
               (with_react (upd_qaHistory (VArr [])) (settled id' w')) []); try done.
    + rewrite (step_settle id (Fulfilled VNull) w AfterLangs (Returned tt)
                 (settled id w)
                 [ConsoleError (Some "Error fetching langs:")
                    (TypeError "Cannot read properties of null")]); try done.
      rewrite (step_settle id' (Fulfilled VNull) w' AfterHistory (Returned tt)
                 (settled id' w')
                 [ConsoleError (Some "Error fetching history:")
                    (TypeError "Cannot read properties of null")]); done.
    + cbn [resume]. rewrite fetchHistory_resume_fulfilled.
      by rewrite (get_field_lacking d' "qa_pairs").
  - cbn [resume]. rewrite fetchLangs_resume_fulfilled.
    by rewrite (get_field_lacking d "langs").
Qed.

(** * Asking *)

(** C5. When the request of [askQuestion] fails, the failure is logged
    and alerted, and the React state, the displayed answer and the history
    with it, is what it was; issuing the request had not changed it
    either. *)
Theorem ask_failure_keeps_answer_and_history
    (w0 w : World) (id : nat) (e : error) :
  truthy_str (question (react w0)) = true →
  in_flight w !! id = Some AfterAnswer →
  let asked := step ClickGetAnswer w0 in
  let failed := step (Settle id (Rejected e)) w in
  (in_flight asked.1 !! next_id w0 = Some AfterAnswer ∧
   react asked.1 = react w0) ∧
  (failed.2 = [ConsoleError (Some "Ask failed:") e; Alert "Failed to get answer"] ∧
   answer (react failed.1) = answer (react w) ∧
   qaHistory (react failed.1) = qaHistory (react w) ∧
   react failed.1 = react w).
Proof.
  intros Hq Hid. cbn zeta. split.
  - rewrite step_ClickGetAnswer, Hq. cbn. split; [apply lookup_insert_eq | done].
  - by rewrite (step_settle id (Rejected e) w AfterAnswer (Returned tt)
                  (settled id w)
                  [ConsoleError (Some "Ask failed:") e; Alert "Failed to get answer"]).
Qed.

(** * Audio *)

Lemma append_inj_r (p a b : string) : p +:+ a = p +:+ b → a = b.
Proof. induction p as [|c p IH]; cbn; [done|]. intros [= H]. by apply IH. Qed.

Lemma fresh_url_inj (w1 w2 : World) :
  fresh_url w1 = fresh_url w2 → next_url w1 = next_url w2.
Proof.
  unfold fresh_url. intros H%append_inj_r. by apply (inj pretty) in H.
Qed.

Lemma step_audio_fulfilled id d w :
  in_flight w !! id = Some AfterAudiobook →
  step (Settle id (Fulfilled d)) w =
  (with_audio d (settled id w), [Alert "🎧 Audio generated successfully!"]).
Proof.
  intros Hid.
  by apply (step_settle id (Fulfilled d) w AfterAudiobook (Returned tt)).
Qed.

(** C6. Generate, succeed, generate again, succeed again: the state holds
    one audio reference, the URL created for the second payload, which is
    not the first one; the blob URL store resolves it to the second payload,
    and the [audio] element of the rendered tree has it as its [src]. *)
Theorem second_audio_supersedes_first (w : World) (d1 d2 : value) :
  isLoggedIn (react w) = true →
  let w1 := (step ClickGenerateAudio w).1 in
  let w2 := (step (Settle (next_id w) (Fulfilled d1)) w1).1 in
  let w3 := (step ClickGenerateAudio w2).1 in
  let w4 := (step (Settle (next_id w2) (Fulfilled d2)) w3).1 in
  ∃ u1 u2 : string,
    audioUrl (react w2) = Some u1 ∧
    audioUrl (react w4) = Some u2 ∧
    u1 ≠ u2 ∧
    blob_urls w4 !! u2 =
      Some {| blob_bytes := blob_part d2; blob_type := "audio/mpeg" |} ∧
    audio_src (render (react w2)) = Some u1 ∧
    audio_src (render (react w4)) = Some u2.
Proof.
  intros Hin. cbn zeta.
  rewrite (step_ClickGenerateAudio w). cbn [fst].
  rewrite (step_audio_fulfilled (next_id w) d1 (enqueue AfterAudiobook w))
    by apply lookup_insert_eq.
  cbn [fst].
  set (w2 := with_audio d1 (settled (next_id w) (enqueue AfterAudiobook w))).
  rewrite (step_ClickGenerateAudio w2). cbn [fst].
  rewrite (step_audio_fulfilled (next_id w2) d2 (enqueue AfterAudiobook w2))
    by apply lookup_insert_eq.
  cbn [fst].
  exists (fresh_url w), (fresh_url w2).
  repeat split.
  - intros H. apply fresh_url_inj in H. cbn in H. lia.
  - cbn. apply lookup_insert_eq.
  - cbn. by rewrite Hin.
  - cbn. by rewrite Hin.
Qed.

(** * Loading after login *)

(** From a logged-out component, a login that stores a token issues the
    two loader requests twice: once from [handleLogin], once from the
    effect on [isLoggedIn]. *)
Lemma login_loads_twice id d tok w :
  isLoggedIn (react w) = false →
  in_flight w !! id = Some AfterLogin →
  get_field d "token" = Some tok → truthy tok = true →
  url <$> requests (step (Settle id (Fulfilled d)) w).2 =
  ["/api/langs"; "/api/qa-history"; "/api/langs"; "/api/qa-history"].
Proof.
  intros Hout Hid Hf Ht.
  rewrite (step_login_stored id d tok) by done. cbn zeta. rewrite Hout.
  cbn. unfold authorize.
  by destruct (bearer _).
Qed.

(** C7 at the login of [admin_login]: the run is possible on the rendered
    controls, and of its requests two, not one, go to [/api/langs]. *)
Theorem admin_login_fetches_langs_twice :
  possible admin_login (init ∅) = true ∧
  url <$> requests (run admin_login (init ∅)).2 =
    ["/api/login"; "/api/langs"; "/api/qa-history"; "/api/langs"; "/api/qa-history"] ∧
  count_to "/api/langs" (requests (run admin_login (init ∅)).2) = 2.
Proof. by vm_compute. Qed.

(** * The theorems at concrete sessions *)

Lemma bearer_after_login_none_after_logout_witness :
  (localStorage (step (Settle 0 (Fulfilled token_abc)) login_pending).1 !! "auth_token"
     = Some "abc" ∧
   Forall (λ r, authorization r = Some "Bearer abc")
     (requests (step (Settle 0 (Fulfilled token_abc)) login_pending).2 ++
      requests (run ask_about_document
                  (step (Settle 0 (Fulfilled token_abc)) login_pending).1).2)) ∧
  (localStorage (step NavLogout admin_world).1 !! "auth_token" = None ∧
   Forall (λ r, authorization r = None)
     (requests (run [ClickLogin] (step NavLogout admin_world).1).2)).
Proof.
  apply (bearer_after_login_none_after_logout
           login_pending 0 token_abc "abc" ask_about_document
           admin_world [ClickLogin]);
    vm_compute; reflexivity.
Defined.

Lemma login_request_carries_stored_token_witness :
  (step ClickLogin stale_token_world).2 =
    [Send 0
       {| method := POST; baseURL := "http://127.0.0.1:8000"; url := "/api/login";
          data := JsonBody (VObj [("username", VStr "admin");
                                  ("password", VStr "1234")]);
          headers := {["Authorization" := "Bearer stale"]};
          responseType := None |}] ∧
  Forall (λ r, authorization r =
               bearer (localStorage (step ClickGetAnswer asking_world).1))
    (requests (step ClickGetAnswer asking_world).2).
Proof.
  apply (login_request_carries_stored_token
           stale_token_world "stale" ClickGetAnswer asking_world);
    vm_compute; reflexivity.
Defined.

Lemma guarded_flows_fail_fast_witness :
  (∃ msg, validation_message Upload = Some msg ∧
          step (click Upload) admin_world = (admin_world, [Alert msg])) ∧
  fails_fast Upload admin_world ∧
  step (click GenerateAudio) admin_world =
    (enqueue AfterAudiobook admin_world,
     [Send (next_id admin_world)
        (authorize (localStorage admin_world)
           (audiobook_request (selectedLang (react admin_world))))]).
Proof.
  apply (guarded_flows_fail_fast Upload admin_world admin_world).
  - discriminate.
  - vm_compute; reflexivity.
Defined.

Lemma fetchHistory_replaces_wholesale_witness :
  let after :=
    step (Settle 2 (Fulfilled (VObj [("qa_pairs", VArr unsorted_pairs)]))) admin_world in
  qaHistory (react after.1) = VArr unsorted_pairs ∧
  react after.1 = upd_qaHistory (VArr unsorted_pairs) (react admin_world) ∧
  after.2 = [] ∧
  in_flight (fetchHistory admin_world).1.2 !! next_id admin_world = Some AfterHistory ∧
  (fetchHistory admin_world).2 =
    [Send (next_id admin_world) (authorize (localStorage admin_world) history_request)].
Proof.
  apply (fetchHistory_replaces_wholesale admin_world admin_world 2
           (VObj [("qa_pairs", VArr unsorted_pairs)]) unsorted_pairs);
    vm_compute; reflexivity.
Defined.

Lemma loader_failure_is_silent_witness :
  let e := AxiosError "Request failed with status code 500" in
  let langs_failed := step (Settle 1 (Rejected e)) admin_world in
  let history_failed := step (Settle 2 (Rejected e)) admin_world in
  (langs_failed.2 = [ConsoleError (Some "Error fetching langs:") e] ∧
   alerts langs_failed.2 = [] ∧
   react langs_failed.1 = react admin_world ∧
   langs (react langs_failed.1) = langs (react admin_world)) ∧
  (history_failed.2 = [ConsoleError (Some "Error fetching history:") e] ∧
   alerts history_failed.2 = [] ∧
   react history_failed.1 = react admin_world ∧
   qaHistory (react history_failed.1) = qaHistory (react admin_world)).
Proof.
  apply (loader_failure_is_silent admin_world 1 admin_world 2
           (AxiosError "Request failed with status code 500"));
    vm_compute; reflexivity.
Defined.

Lemma loader_missing_field_resets_witness :
  let d := VObj [] in
  let d' := VObj [("detail", VStr "none")] in
  let langs_loaded := step (Settle 1 (Fulfilled d)) admin_world in
  let history_loaded := step (Settle 2 (Fulfilled d')) admin_world in
  let langs_null := step (Settle 1 (Fulfilled VNull)) admin_world in
  let history_null := step (Settle 2 (Fulfilled VNull)) admin_world in
  (langs (react langs_loaded.1) = VObj [] ∧ langs_loaded.2 = []) ∧
  (qaHistory (react history_loaded.1) = VArr [] ∧ history_loaded.2 = []) ∧
  (react langs_null.1 = react admin_world ∧
   langs_null.2 = [ConsoleError (Some "Error fetching langs:")
                     (TypeError "Cannot read properties of null")]) ∧
  (react history_null.1 = react admin_world ∧
   history_null.2 = [ConsoleError (Some "Error fetching history:")
                       (TypeError "Cannot read properties of null")]).
Proof.
  apply (loader_missing_field_resets admin_world 1 (VObj [])
           admin_world 2 (VObj [("detail", VStr "none")]));
    vm_compute; reflexivity.
Defined.

Lemma ask_failure_keeps_answer_and_history_witness :
  let e := AxiosError "Network Error" in
  let asked := step ClickGetAnswer asking_world in
  let failed := step (Settle 5 (Rejected e)) asked.1 in
  (in_flight asked.1 !! next_id asking_world = Some AfterAnswer ∧
   react asked.1 = react asking_world) ∧
  (failed.2 = [ConsoleError (Some "Ask failed:") e; Alert "Failed to get answer"] ∧
   answer (react failed.1) = answer (react asked.1) ∧
   qaHistory (react failed.1) = qaHistory (react asked.1) ∧
   react failed.1 = react asked.1).
Proof.
  apply (ask_failure_keeps_answer_and_history asking_world
           (step ClickGetAnswer asking_world).1 5 (AxiosError "Network Error"));
    vm_compute; reflexivity.
Defined.

Lemma second_audio_supersedes_first_witness :
  let w1 := (step ClickGenerateAudio admin_world).1 in
  let w2 := (step (Settle (next_id admin_world) (Fulfilled (mp3 "first"))) w1).1 in
  let w3 := (step ClickGenerateAudio w2).1 in
  let w4 := (step (Settle (next_id w2) (Fulfilled (mp3 "second"))) w3).1 in
  ∃ u1 u2 : string,
    audioUrl (react w2) = Some u1 ∧
    audioUrl (react w4) = Some u2 ∧
    u1 ≠ u2 ∧
    blob_urls w4 !! u2 =
      Some {| blob_bytes := blob_part (mp3 "second"); blob_type := "audio/mpeg" |} ∧
    audio_src (render (react w2)) = Some u1 ∧
    audio_src (render (react w4)) = Some u2.
Proof.
  apply (second_audio_supersedes_first admin_world (mp3 "first") (mp3 "second")).
  vm_compute; reflexivity.
Defined.

(** * Remarks at the edges *)

(** When two generations overlap and the responses arrive in the other
    order, the reference held at the end is the one made for the response
    that arrived last: the payload of the first click. *)
Example overlapping_audio_last_response_wins :
  possible overlapping_audio (init ∅) = true ∧
  let w := (run overlapping_audio (init ∅)).1 in
  ∃ u, audioUrl (react w) = Some u ∧
       blob_bytes <$> blob_urls w !! u = Some "first".
Proof. split; [by vm_compute|]. eexists. split; by vm_compute. Qed.

(** A token that is not a string is stored as its string conversion.  An
    empty array is truthy and converts to the empty string: the login goes
    through, and the interceptor finds nothing to attach. *)
Example array_token_is_stored_empty :
  let after :=
    run [Settle 0 (Fulfilled (VObj [("token", VArr [])])); ClickGenerateAudio]
      login_pending in
  isLoggedIn (react after.1) = true ∧
  localStorage after.1 !! "auth_token" = Some "" ∧
  authorization <$> requests after.2 = [None; None; None; None; None].
Proof. by vm_compute. Qed.

(** * The transition function in closed form *)

Lemma resume_unfolds k res w :
  resume k res w = (Returned tt, (resume_result k res w).1, (resume_result k res w).2).
Proof.
  destruct k as [| | |f| |], res as [d|e]; cbn [resume resume_result].
  - rewrite fetchLangs_resume_fulfilled. by destruct (get_field d "langs").
  - reflexivity.
  - rewrite fetchHistory_resume_fulfilled. by destruct (get_field d "qa_pairs").
  - reflexivity.
  - destruct (get_field d "token") as [tok|] eqn:Hf.
    + destruct (truthy tok) eqn:Ht.
      * by rewrite (handleLogin_resume_stored d tok).
      * by rewrite (handleLogin_resume_refused d tok).
    + by rewrite handleLogin_resume_null.
  - reflexivity.
  - by rewrite uploadFile_resume_fulfilled.
  - reflexivity.
  - rewrite askQuestion_resume_fulfilled. by destruct (get_field d "answer").
  - reflexivity.
  - reflexivity.
  - reflexivity.
Qed.

Lemma handle_unfolds ev w :
  handle ev w = (Returned tt, (handle_result ev w).1, (handle_result ev w).2).
Proof.
  destruct ev as [| | | | files | files | | s | | code | | s | s | | | id res];
    cbn [handle_result]; try reflexivity.
  - by destruct files.
  - change (handle ClickUpload w) with (uploadFile w). rewrite uploadFile_run.
    by destruct (file (react w)).
  - change (handle ClickGetAnswer w) with (askQuestion w). rewrite askQuestion_run.
    by destruct (negb _).
  - change (handle ClickGenerateAudio w) with (generateAudio w).
    by rewrite generateAudio_run.
  - change (handle ClickLogin w) with (handleLogin w). rewrite handleLogin_run.
    by destruct (negb _ || negb _).
  - rewrite handle_settle. destruct (in_flight w !! id) as [k|]; [|reflexivity].
    apply resume_unfolds.
Qed.

Lemma resume_result_isLoggedIn k res w :
  isLoggedIn (react (resume_result k res w).1) =
  match k, res with
  | AfterLogin, Fulfilled d =>
      match get_field d "token" with
      | Some tok => if truthy tok then true else isLoggedIn (react w)
      | None => isLoggedIn (react w)
      end
  | _, _ => isLoggedIn (react w)
  end.
Proof.
  destruct k as [| | |f| |], res as [d|e]; cbn [resume_result]; try reflexivity.
  - by destruct (get_field d "langs").
  - by destruct (get_field d "qa_pairs").
  - destruct (get_field d "token") as [tok|]; [|reflexivity].
    by destruct (truthy tok).
  - by destruct (get_field d "answer").
Qed.

Lemma handle_result_isLoggedIn ev w :
  isLoggedIn (react (handle_result ev w).1) =
  if removes_token ev then false
  else if stores_token ev w then true
  else isLoggedIn (react w).
Proof.
  destruct ev as [| | | | files | files | | s | | code | | s | s | | | id res];
    cbn [handle_result removes_token stores_token]; try reflexivity.
  - by destruct files.
  - by destruct (file (react w)).
  - by destruct (negb _).
  - by destruct (negb _ || negb _).
  - destruct (in_flight w !! id) as [k|]; [|by destruct res].
    rewrite resume_result_isLoggedIn.
    destruct k, res as [d|e]; try reflexivity.
    destruct (get_field d "token") as [tok|]; [|reflexivity].
    by destruct (truthy tok).
Qed.

(** [step] is [step_result]: the handler's closed form, and the two loader
    requests once more exactly when a login response stores a token while
    the component is logged out. *)
Lemma step_unfolds ev w : step ev w = step_result ev w.
Proof.
  unfold step, step_result. rewrite handle_unfolds, commit_run.
  rewrite handle_result_isLoggedIn.
  destruct (handle_result ev w) as [w1 out1]. cbn [fst snd].
  destruct (removes_token ev) eqn:Hrm.
  - destruct ev; try discriminate Hrm. cbn [stores_token andb].
    destruct (isLoggedIn (react w)); cbn; by rewrite ?app_nil_r.
  - destruct (stores_token ev w), (isLoggedIn (react w)); cbn;
      by rewrite ?app_nil_r.
Qed.

(** Split a statement about [step ev w] into the cases of [step_result]:
    the event, the continuation, the response and what its body holds. *)
Ltac step_cases ev w :=
  rewrite ?step_unfolds; unfold step_result;
  destruct ev as [| | | | [|? ?] | ? | | ? | | ? | | ? | ? | | | ?id [?d|?e]];
  cbn [handle_result stores_token removes_token refreshes_history settles
       edits_credentials selects_language andb];
  repeat first
    [ progress cbn [resume_result andb orb negb fst snd]
    | match goal with
      | |- context [in_flight w !! ?i] =>
          destruct (in_flight w !! i) as [[| | |?f| |]|] eqn:?
      | |- context [get_field ?d ?k] => destruct (get_field d k) as [?v|] eqn:?
      | |- context [truthy ?t] => destruct (truthy t) eqn:?
      | |- context [file (react w)] => destruct (file (react w)) as [?f|] eqn:?
      | |- context [truthy_str (question (react w))] =>
          destruct (truthy_str (question (react w))) eqn:?
      | |- context [truthy_str (username (react w))] =>
          destruct (truthy_str (username (react w))) eqn:?
      | |- context [truthy_str (password (react w))] =>
          destruct (truthy_str (password (react w))) eqn:?
      | |- context [isLoggedIn (react w)] =>
          destruct (isLoggedIn (react w)) eqn:?
      end ].

Lemma step_isLoggedIn ev w :
  isLoggedIn (react (step ev w).1) =
  if removes_token ev then false
  else if stores_token ev w then true
  else isLoggedIn (react w).
Proof.
  rewrite step_unfolds. unfold step_result.
  rewrite <- (handle_result_isLoggedIn ev w).
  by destruct (stores_token ev w && negb (isLoggedIn (react w))).
Qed.

Lemma step_showLogin ev w :
  showLogin (react (step ev w).1) =
  match ev with
  | NavLogin | NavLogout => true
  | CloseLogin => false
  | _ => if stores_token ev w then false else showLogin (react w)
  end.
Proof. step_cases ev w; reflexivity. Qed.

Lemma step_password ev w :
  password (react (step ev w).1) =
  match ev with
  | PasswordChange s => s
  | _ => password (react w)
  end.
Proof. step_cases ev w; reflexivity. Qed.

(** ** Requests after the interceptor *)

Lemma authorize_fields storage config :
  method (authorize storage config) = method config ∧
  baseURL (authorize storage config) = baseURL config ∧
  url (authorize storage config) = url config ∧
  data (authorize storage config) = data config ∧
  responseType (authorize storage config) = responseType config ∧
  headers (authorize storage config) !! "Content-Type" =
    headers config !! "Content-Type".
Proof.
  unfold authorize. destruct (bearer storage) as [h|]; cbn; [|done].
  repeat split. by apply lookup_insert_ne.
Qed.

Lemma url_authorize storage config : url (authorize storage config) = url config.
Proof. apply authorize_fields. Qed.

Lemma follows_api_table_authorize storage config :
  follows_api_table config → follows_api_table (authorize storage config).
Proof.
  destruct (authorize_fields storage config) as (Hm & Hb & Hu & Hd & Hr & Hc).
  unfold follows_api_table. by rewrite Hm, Hb, Hu, Hd, Hr, Hc.
Qed.

Lemma requests_cons_Send id r out : requests (Send id r :: out) = r :: requests out.
Proof. reflexivity. Qed.

Lemma requests_cons_Alert msg out : requests (Alert msg :: out) = requests out.
Proof. reflexivity. Qed.

Lemma requests_cons_ConsoleError l e out :
  requests (ConsoleError l e :: out) = requests out.
Proof. reflexivity. Qed.

Lemma requests_nil : requests [] = [].
Proof. reflexivity. Qed.

Lemma requests_loaders w :
  requests (loaders w) =
  [authorize (localStorage w) langs_request;
   authorize (localStorage w) history_request].
Proof. reflexivity. Qed.

(** Bring the requests of an explicit list of effects into view. *)
Ltac list_requests :=
  repeat first
    [ rewrite requests_app | rewrite requests_loaders
    | rewrite requests_cons_Send | rewrite requests_cons_Alert
    | rewrite requests_cons_ConsoleError | rewrite requests_nil ].

(** * Further properties of the component *)

(** ** The requests it makes *)

Lemma follows_langs : follows_api_table langs_request.
Proof. repeat split; auto. Qed.

Lemma follows_history : follows_api_table history_request.
Proof. repeat split; auto. Qed.

Lemma follows_login u p :
  truthy_str u = true → truthy_str p = true →
  follows_api_table (login_request u p).
Proof.
  intros Hu Hp. unfold follows_api_table, login_request; cbn.
  repeat split. left. by exists u, p.
Qed.

Lemma follows_upload f : follows_api_table (upload_request f).
Proof.
  unfold follows_api_table, upload_request; cbn.
  repeat split. by exists f.
Qed.

Lemma follows_answer q : truthy_str q = true → follows_api_table (answer_request q).
Proof.
  intros Hq. unfold follows_api_table, answer_request; cbn.
  repeat split. right. left. by exists q.
Qed.

Lemma follows_audiobook c : follows_api_table (audiobook_request c).
Proof.
  unfold follows_api_table, audiobook_request; cbn.
  repeat split. right. right. by exists c.
Qed.

(** X11. Whatever the event and the world, each request of the step is one
    of the six calls of the source: base URL, method, path, payload shape,
    [Content-Type] and response type as written there, and never with an
    empty username, password or question in the payload. *)
Theorem requests_follow_api_table (ev : event) (w : World) :
  Forall follows_api_table (requests (step ev w).2).
Proof.
  step_cases ev w; list_requests;
    repeat first [apply Forall_nil_2 | apply Forall_cons_2];
    try apply follows_api_table_authorize;
    auto using follows_langs, follows_history, follows_upload,
      follows_audiobook.
  - apply follows_answer. by destruct (truthy_str (question (react w))).
  - apply follows_login.
    + by destruct (truthy_str (username (react w))).
    + by destruct (truthy_str (password (react w))).
Qed.

(** ** Responses *)

(** X5. A rejected request, whichever it is, changes nothing but the
    in-flight table: the React state, the storage and the blob store stay,
    no request is issued in reply (no retry), the error is logged once, and
    the alert is the one of the function's [catch]: none for the two
    loaders, one for the four click handlers. *)
Theorem rejection_changes_nothing
    (w : World) (id : nat) (k : continuation) (e : error) :
  in_flight w !! id = Some k →
  let failed := step (Settle id (Rejected e)) w in
  failed.1 = settled id w ∧
  requests failed.2 = [] ∧
  logged failed.2 = [(failure_label k, e)] ∧
  alerts failed.2 = failure_alert k.
Proof.
  intros Hid. cbn zeta. rewrite step_unfolds. unfold step_result.
  cbn [stores_token andb handle_result]. rewrite Hid.
  by destruct k.
Qed.

(** X1. A login response that stores no token (rejected, a body that
    cannot be read, or a [token] that is absent or falsy) leaves the React
    state and the storage as they were and issues no request.  The alert is
    "Invalid credentials" when the body could be read, and the login-failed
    message otherwise. *)
Theorem login_failure_changes_nothing
    (w : World) (id : nat) (res : response) :
  in_flight w !! id = Some AfterLogin →
  stores_token (Settle id res) w = false →
  let failed := step (Settle id res) w in
  failed.1 = settled id w ∧
  requests failed.2 = [] ∧
  alerts failed.2 =
    [match res with
     | Fulfilled d =>
         if nullish d then "Login failed. Check your credentials."
         else "Invalid credentials"
     | Rejected _ => "Login failed. Check your credentials."
     end].
Proof.
  intros Hid Hst. cbn zeta. rewrite step_unfolds. unfold step_result.
  rewrite Hst. cbn [andb handle_result]. rewrite Hid.
  destruct res as [d|e]; [|done].
  cbn [stores_token] in Hst. rewrite Hid in Hst. cbn [resume_result].
  destruct d; cbn in *; try done; by rewrite Hst.
Qed.

(** X2. When the answer arrives, the answer cell becomes exactly the
    [answer] field of the body ([undefined] when an object body has none),
    the history held in state is not touched by this step, nothing is
    alerted, and one GET to [/api/qa-history] goes out whose response will
    be taken up by [fetchHistory]. *)
Theorem answer_is_shown_and_history_refetched
    (w : World) (id : nat) (d a : value) :
  in_flight w !! id = Some AfterAnswer →
  get_field d "answer" = Some a →
  let answered := step (Settle id (Fulfilled d)) w in
  answer (react answered.1) = a ∧
  qaHistory (react answered.1) = qaHistory (react w) ∧
  answered.2 = [Send (next_id w) (authorize (localStorage w) history_request)] ∧
  in_flight answered.1 !! next_id w = Some AfterHistory.
Proof.
  intros Hid Ha. cbn zeta. rewrite step_unfolds. unfold step_result.
  cbn [stores_token andb handle_result]. rewrite Hid.
  cbn [resume_result andb]. rewrite Ha. cbn.
  repeat split. apply lookup_insert_eq.
Qed.

(** X20. A fulfilled response to the question whose body is [null] is
    handled as a failure: reading [answer] throws inside the [try], so the
    error is logged, "Failed to get answer" is alerted, and neither the
    answer nor anything else in the world changes; no history request goes
    out. *)
Theorem null_answer_body_is_a_failure (w : World) (id : nat) (d : value) :
  in_flight w !! id = Some AfterAnswer →
  nullish d = true →
  step (Settle id (Fulfilled d)) w =
    (settled id w,
     [ConsoleError (Some "Ask failed:") (type_error d);
      Alert "Failed to get answer"]).
Proof.
  intros Hid Hn. rewrite step_unfolds. unfold step_result.
  cbn [stores_token andb handle_result]. rewrite Hid.
  cbn [andb resume_result]. by destruct d.
Qed.

(** X4. The upload counts as done on any fulfilled response: the body is
    never read, so two responses with different bodies lead to the same
    world and the same effects: the file name recorded, the history
    requested, the success alert. *)
Theorem upload_success_ignores_body
    (w : World) (id : nat) (f : File) (d d' : value) :
  in_flight w !! id = Some (AfterUpload f) →
  step (Settle id (Fulfilled d)) w = step (Settle id (Fulfilled d')) w ∧
  filename (react (step (Settle id (Fulfilled d)) w).1) = Some (file_name f) ∧
  (step (Settle id (Fulfilled d)) w).2 =
    [Send (next_id w) (authorize (localStorage w) history_request);
     Alert "✅ File uploaded successfully!"].
Proof.
  intros Hid. rewrite !step_unfolds. unfold step_result.
  cbn [stores_token andb handle_result]. by rewrite Hid.
Qed.

(** X14. Logout cancels nothing.  A history request still in flight at
    logout is taken up when its response arrives: the history emptied by
    the logout is filled again with the server's list, while the component
    stays logged out and the storage stays without a token. *)
Theorem history_response_after_logout_refills
    (w : World) (id : nat) (d : value) (L : list value) :
  in_flight w !! id = Some AfterHistory →
  get_field d "qa_pairs" = Some (VArr L) →
  let out := (step NavLogout w).1 in
  let late := (step (Settle id (Fulfilled d)) out).1 in
  qaHistory (react out) = VArr [] ∧
  in_flight out !! id = Some AfterHistory ∧
  qaHistory (react late) = VArr L ∧
  isLoggedIn (react late) = false ∧
  localStorage late !! "auth_token" = None.
Proof.
  intros Hid Hf. cbn zeta. rewrite step_logout. cbn [fst].
  set (out := with_react _ _).
  assert (in_flight out !! id = Some AfterHistory) as Hid' by exact Hid.
  rewrite step_unfolds. unfold step_result.
  cbn [stores_token andb handle_result]. rewrite Hid'.
  cbn [resume_result andb]. rewrite Hf. cbn.
  repeat split; try done. apply lookup_delete_eq.
Qed.


(** ** Selecting a file *)

(** X13. A drop selects the first of the dropped files and keeps the
    earlier selection when nothing was dropped; a change of the file input
    selects its first file and clears the selection when it has none, after
    which Upload only alerts. *)
Theorem drop_keeps_selection_input_clears_it
    (w : World) (f : File) (rest : list File) :
  file (react (step (DropOnCard (f :: rest)) w).1) = Some f ∧
  file (react (step (DropOnCard []) w).1) = file (react w) ∧
  dragOver (react (step (DropOnCard []) w).1) = false ∧
  file (react (step (FileInputChange (f :: rest)) w).1) = Some f ∧
  file (react (step (FileInputChange []) w).1) = None ∧
  (step ClickUpload (step (FileInputChange []) w).1).2 = [Alert "Pick a file first!"].
Proof.
  rewrite !step_unfolds. unfold step_result. cbn [stores_token andb handle_result].
  repeat split.
Qed.

(** ** Invariants of runs *)

(** Reduce the projections of a world given in closed form. *)
Ltac world_simpl :=
  cbn [react localStorage in_flight next_id blob_urls next_url
       load enqueue logged_in_with logged_out with_react with_storage
       settled with_audio fst snd
       file filename question answer qaHistory langs selectedLang audioUrl
       dragOver showLogin isLoggedIn username password
       upd_file upd_filename upd_question upd_answer upd_qaHistory upd_langs
       upd_selectedLang upd_audioUrl upd_dragOver upd_showLogin upd_isLoggedIn
       upd_username upd_password] in *.

Lemma run_possible_invariant (I : World → Prop) :
  (∀ ev w, rendered ev w = true → I w → I (step ev w).1) →
  ∀ evs w, possible evs w = true → I w → I (run evs w).1.
Proof.
  intros Hstep evs. induction evs as [|ev rest IH]; intros w Hok Hw; [done|].
  cbn [possible] in Hok. apply andb_prop in Hok as [Hev Hrest].
  rewrite run_cons. cbn [fst]. apply IH; [done|]. by apply Hstep.
Qed.

Lemma run_invariant_always (I : World → Prop) :
  (∀ ev w, I w → I (step ev w).1) →
  ∀ evs w, I w → I (run evs w).1.
Proof.
  intros Hstep evs. induction evs as [|ev rest IH]; intros w Hw; [done|].
  rewrite run_cons. cbn [fst]. apply IH. by apply Hstep.
Qed.

Lemma step_modal_over_logged_out ev w :
  rendered ev w = true →
  modal_over_logged_out w → modal_over_logged_out (step ev w).1.
Proof.
  unfold modal_over_logged_out. rewrite step_showLogin, step_isLoggedIn.
  intros Hr Hw.
  destruct ev; cbn [rendered removes_token] in *; try done;
    try (destruct (stores_token _ w); [done | exact Hw]).
  - (* NavLogin *) intros _. by apply negb_true_iff in Hr.
Qed.

(** X6. From a page load on, as long as the events come from rendered
    controls and arriving responses, the login modal is never open over the
    authenticated view: when the modal is rendered, the main content is not
    and the navbar shows Login. *)
Theorem modal_never_over_authenticated_view
    (storage : gmap string string) (evs : list event) :
  possible evs (init storage) = true →
  let v := render (react (run evs (init storage)).1) in
  login_modal v = true → main_content v = false ∧ nav v = LoginButton.
Proof.
  intros Hp. cbn zeta.
  assert (modal_over_logged_out (run evs (init storage)).1) as Hinv.
  { apply (run_possible_invariant modal_over_logged_out);
      [apply step_modal_over_logged_out | exact Hp | done]. }
  unfold render. cbn. intros Hm. by rewrite (Hinv Hm).
Qed.

Lemma step_token_behind_session ev w :
  token_behind_session w → token_behind_session (step ev w).1.
Proof.
  unfold token_behind_session. rewrite step_isLoggedIn. revert ev.
  intros ev Hw. destruct (removes_token ev) eqn:Hrm; [done|].
  destruct (stores_token ev w) eqn:Hst.
  - intros _.
    destruct ev as [| | | | | | | | | | | | | | | id [d|e]]; try discriminate Hst.
    cbn [stores_token] in Hst.
    destruct (in_flight w !! id) as [[| | |f| |]|] eqn:Hid; try discriminate Hst.
    destruct (get_field d "token") as [tok|] eqn:Hf; [|discriminate Hst].
    rewrite (step_login_stored id d tok) by done. cbn zeta.
    destruct (isLoggedIn (react w)); cbn; rewrite lookup_insert_eq; by eexists.
  - intros Hin. destruct (step_stable ev w Hst Hrm) as [-> _]. by apply Hw.
Qed.

(** X7. From a page load on, whatever happens, the component is logged in
    only while a token is in the storage. *)
Theorem logged_in_only_with_token
    (storage : gmap string string) (evs : list event) :
  isLoggedIn (react (run evs (init storage)).1) = true →
  is_Some (localStorage (run evs (init storage)).1 !! "auth_token").
Proof.
  apply (run_invariant_always token_behind_session);
    [apply step_token_behind_session | done].
Qed.

Lemma step_other_keys ev w (k : string) :
  k ≠ "auth_token" → localStorage (step ev w).1 !! k = localStorage w !! k.
Proof.
  intros Hk. destruct (removes_token ev) eqn:Hrm.
  - destruct ev; try discriminate Hrm. rewrite step_logout. cbn.
    by apply lookup_delete_ne.
  - destruct (stores_token ev w) eqn:Hst.
    + destruct ev as [| | | | | | | | | | | | | | | id [d|e]]; try discriminate Hst.
      cbn [stores_token] in Hst.
      destruct (in_flight w !! id) as [[| | |f| |]|] eqn:Hid; try discriminate Hst.
      destruct (get_field d "token") as [tok|] eqn:Hf; [|discriminate Hst].
      rewrite (step_login_stored id d tok) by done. cbn zeta.
      destruct (isLoggedIn (react w)); cbn; by apply lookup_insert_ne.
    + by destruct (step_stable ev w Hst Hrm) as [-> _].
Qed.

Lemma run_other_keys evs w (k : string) :
  k ≠ "auth_token" → localStorage (run evs w).1 !! k = localStorage w !! k.
Proof.
  intros Hk. revert w. induction evs as [|ev rest IH]; intros w; [done|].
  rewrite run_cons. cbn [fst]. by rewrite IH, step_other_keys.
Qed.

(** X8. The component writes one key of the storage and no other: through
    any run, what [localStorage] holds under a key other than [auth_token]
    is what it held before. *)
Theorem only_auth_token_is_written
    (evs : list event) (w : World) (k : string) :
  k ≠ "auth_token" →
  localStorage (run evs w).1 !! k = localStorage w !! k.
Proof. apply run_other_keys. Qed.

(** X9. Login and logout are inverse on the storage: when no token was
    stored before a run, logging out at its end leaves the storage exactly
    as it was. *)
Theorem logout_restores_storage (evs : list event) (w : World) :
  localStorage w !! "auth_token" = None →
  localStorage (step NavLogout (run evs w).1).1 = localStorage w.
Proof.
  intros Hnone. rewrite step_logout. cbn. apply map_eq. intros k.
  destruct (decide (k = "auth_token")) as [->|Hk].
  - by rewrite lookup_delete_eq, Hnone.
  - rewrite lookup_delete_ne by done. by apply run_other_keys.
Qed.

Lemma step_credentials ev w :
  edits_credentials ev = false →
  username (react (step ev w).1) = username (react w) ∧
  password (react (step ev w).1) = password (react w).
Proof. step_cases ev w; done. Qed.

(** X16. Nothing but the two fields of the login form writes the
    username and the password: through any run without an edit of those
    fields (login, logout and all the rest included) both stay in the React
    state as typed. *)
Theorem credentials_stay_in_state (evs : list event) (w : World) :
  forallb (λ ev, negb (edits_credentials ev)) evs = true →
  username (react (run evs w).1) = username (react w) ∧
  password (react (run evs w).1) = password (react w).
Proof.
  revert w. induction evs as [|ev rest IH]; intros w Hevs; [done|].
  cbn [forallb] in Hevs. apply andb_prop in Hevs as [Hev Hrest].
  apply negb_true_iff in Hev.
  rewrite run_cons. cbn [fst].
  destruct (IH (step ev w).1 Hrest) as [-> ->]. by apply step_credentials.
Qed.

(** ** Requests in flight *)

Lemma numbered_below_insert m n k :
  numbered_below m n → numbered_below (<[n := k]> m) (S n).
Proof.
  intros Hm. apply map_Forall_insert_2; [lia|].
  apply (map_Forall_impl _ _ _ Hm). intros i _ Hi. cbn in Hi. lia.
Qed.

Lemma numbered_below_delete m n j :
  numbered_below m n → numbered_below (delete j m) n.
Proof. apply map_Forall_delete. Qed.

Lemma step_ids_fresh ev w : ids_fresh w → ids_fresh (step ev w).1.
Proof.
  unfold ids_fresh. intros Hw. step_cases ev w; world_simpl;
    repeat first [ exact Hw | apply numbered_below_insert
                 | apply numbered_below_delete ].
Qed.

Lemma lookup_insert_below (m : gmap nat continuation) n k id :
  id < n → <[n := k]> m !! id = m !! id.
Proof. intros Hlt. apply lookup_insert_ne. lia. Qed.

Lemma step_keeps_in_flight ev w id k :
  ids_fresh w → in_flight w !! id = Some k → settles id ev = false →
  in_flight (step ev w).1 !! id = Some k.
Proof.
  intros Hw Hid.
  assert (id < next_id w) as Hlt by exact (map_Forall_lookup_1 _ _ _ _ Hw Hid).
  step_cases ev w; world_simpl; intros Hs;
    rewrite ?lookup_insert_below by lia; try done.
  all: apply Nat.eqb_neq in Hs; by rewrite lookup_delete_ne.
Qed.

Lemma run_keeps_in_flight evs w id k :
  ids_fresh w → in_flight w !! id = Some k →
  forallb (λ ev, negb (settles id ev)) evs = true →
  in_flight (run evs w).1 !! id = Some k ∧ ids_fresh (run evs w).1.
Proof.
  revert w. induction evs as [|ev rest IH]; intros w Hw Hid Hevs; [done|].
  cbn [forallb] in Hevs. apply andb_prop in Hevs as [Hev Hrest].
  apply negb_true_iff in Hev.
  rewrite run_cons. cbn [fst]. apply IH; [|by apply step_keeps_in_flight|done].
  by apply step_ids_fresh.
Qed.

(** X17. No event cancels a request.  In a world whose in-flight requests
    are numbered below [next_id] (as they are from a page load on), a
    request stays in flight with its continuation through any run that does
    not deliver its response: through logout and through any other click or
    response. *)
Theorem requests_stay_in_flight
    (evs : list event) (w : World) (id : nat) (k : continuation) :
  ids_fresh w →
  in_flight w !! id = Some k →
  forallb (λ ev, negb (settles id ev)) evs = true →
  in_flight (run evs w).1 !! id = Some k.
Proof. intros Hw Hid Hevs. by apply run_keeps_in_flight. Qed.

(** X3. The name recorded for an upload is the name of the file that was
    selected when Upload was clicked.  Whatever happens between the click
    and the response, another file picked or dropped included, the fulfilled
    response sets [filename] to that name. *)
Theorem upload_records_name_chosen_at_click
    (w : World) (f : File) (evs : list event) (d : value) :
  ids_fresh w →
  file (react w) = Some f →
  forallb (λ ev, negb (settles (next_id w) ev)) evs = true →
  let clicked := (step ClickUpload w).1 in
  let meanwhile := (run evs clicked).1 in
  filename (react (step (Settle (next_id w) (Fulfilled d)) meanwhile).1)
    = Some (file_name f).
Proof.
  intros Hw Hf Hevs. cbn zeta.
  assert (in_flight (run evs (step ClickUpload w).1).1 !! next_id w
          = Some (AfterUpload f)) as Hid.
  { apply run_keeps_in_flight; [by apply step_ids_fresh| |done].
    rewrite step_ClickUpload, Hf. cbn. apply lookup_insert_eq. }
  rewrite step_unfolds. unfold step_result.
  cbn [stores_token andb handle_result]. by rewrite Hid.
Qed.

(** ** The audio reference *)

Lemma step_audio_resolves ev w : audio_resolves w → audio_resolves (step ev w).1.
Proof.
  unfold audio_resolves. intros [Hurl Hall].
  step_cases ev w; world_simpl; try (split; [done | exact Hall]).
  all: split;
    [ intros u [= <-]; rewrite lookup_insert_eq; by eexists
    | by apply map_Forall_insert_2 ].
Qed.

(** X12. From a page load on, whatever happens, the [audio] element of the
    rendered tree points into the blob URL store: its [src] resolves to a
    blob, and that blob is labelled [audio/mpeg]. *)
Theorem audio_src_always_resolves
    (storage : gmap string string) (evs : list event) (u : string) :
  audio_src (render (react (run evs (init storage)).1)) = Some u →
  ∃ b, blob_urls (run evs (init storage)).1 !! u = Some b ∧
       blob_type b = "audio/mpeg".
Proof.
  assert (audio_resolves (run evs (init storage)).1) as [Hurl Hall].
  { apply (run_invariant_always audio_resolves); [apply step_audio_resolves|].
    split; [done | apply map_Forall_empty]. }
  unfold render. cbn. intros Hsrc.
  destruct (isLoggedIn _); [|done].
  destruct (audioUrl _) as [u'|] eqn:Hu; [|done].
  destruct (truthy_str u'); [|done]. injection Hsrc as ->.
  destruct (Hurl u eq_refl) as [b Hb]. exists b. split; [done|].
  by apply (Hall u b).
Qed.

(** ** When the loaders are called *)

Lemma nullish_get_field d k : nullish d = true → get_field d k = None.
Proof. by destruct d. Qed.

Lemma not_nullish_get_field d k : nullish d = false → is_Some (get_field d k).
Proof. destruct d; try done; by eexists. Qed.

(** X10. The catalog is requested by a login that stores a token and by
    nothing else; the history is requested, outside such a login, exactly
    once after a fulfilled upload or a fulfilled answer with a readable
    body, and not at all by any other event: no click, no edit, no failed
    or malformed response fetches either. *)
Theorem loaders_run_only_where_called (ev : event) (w : World) :
  stores_token ev w = false →
  Forall (λ r, url r ≠ "/api/langs") (requests (step ev w).2) ∧
  if refreshes_history ev w
  then url <$> requests (step ev w).2 = ["/api/qa-history"]
  else Forall (λ r, url r ≠ "/api/qa-history") (requests (step ev w).2).
Proof.
  intros Hst. rewrite step_unfolds. unfold step_result. rewrite Hst. cbn [andb].
  destruct ev as [| | | | [|? ?] | ? | | ? | | ? | | ? | ? | | | id [d|e]];
    cbn [handle_result refreshes_history stores_token] in *;
    repeat match goal with
      | |- context [in_flight w !! ?i] =>
          destruct (in_flight w !! i) as [[| | |?f| |]|]
      | |- context [file (react w)] => destruct (file (react w)) as [?f|]
      | |- context [negb (truthy_str ?s)] => destruct (negb (truthy_str s))
      end;
    cbn [resume_result orb fst snd];
    repeat match goal with
      | |- context [get_field ?d ?k] => destruct (get_field d k) as [?v|] eqn:Hf
      | |- context [truthy ?t] => destruct (truthy t)
      end;
    try discriminate Hst;
    cbn [fst snd]; list_requests.
  all: try (split; repeat first [apply Forall_nil_2 | apply Forall_cons_2];
            rewrite ?url_authorize; done).
  - (* a fulfilled upload *)
    split; [|by rewrite list_fmap_singleton, url_authorize].
    apply Forall_cons_2; [by rewrite url_authorize | apply Forall_nil_2].
  - (* an answer that could be read *)
    destruct (nullish d) eqn:Hn.
    + by rewrite (nullish_get_field d "answer" Hn) in Hf.
    + cbn [negb]. split; [|by rewrite list_fmap_singleton, url_authorize].
      apply Forall_cons_2; [by rewrite url_authorize | apply Forall_nil_2].
  - (* an answer that could not *)
    destruct (nullish d) eqn:Hn.
    + cbn [negb]. split; apply Forall_nil_2.
    + destruct (not_nullish_get_field d "answer" Hn) as [a Ha]. congruence.
Qed.

(** ** What the state can hold *)

Lemma or_else_not_nullish a b : nullish b = false → nullish (or_else a b) = false.
Proof.
  intros Hb. unfold or_else. destruct (truthy a) eqn:Ht; [|done].
  by destruct a.
Qed.

Lemma step_lists_defined ev w : lists_defined w → lists_defined (step ev w).1.
Proof.
  unfold lists_defined. intros [Hl Hh].
  step_cases ev w; world_simpl; split; try done; by apply or_else_not_nullish.
Qed.

(** X18. From a page load on, whatever the server answers, the catalog and
    the history held in state are never [null] or [undefined]: the [||]
    fallbacks of the loaders see to it, so reading [qaHistory.length] and
    enumerating [langs] in the render cannot fail on a missing value. *)
Theorem catalog_and_history_never_null
    (storage : gmap string string) (evs : list event) :
  nullish (langs (react (run evs (init storage)).1)) = false ∧
  nullish (qaHistory (react (run evs (init storage)).1)) = false.
Proof.
  apply (run_invariant_always lists_defined); [apply step_lists_defined | done].
Qed.

Lemma step_selectedLang ev w :
  selects_language ev = false →
  selectedLang (react (step ev w).1) = selectedLang (react w).
Proof. step_cases ev w; done. Qed.

Lemma run_selectedLang evs w :
  forallb (λ ev, negb (selects_language ev)) evs = true →
  selectedLang (react (run evs w).1) = selectedLang (react w).
Proof.
  revert w. induction evs as [|ev rest IH]; intros w Hevs; [done|].
  cbn [forallb] in Hevs. apply andb_prop in Hevs as [Hev Hrest].
  apply negb_true_iff in Hev.
  rewrite run_cons. cbn [fst]. rewrite IH by done. by apply step_selectedLang.
Qed.

(** X19. No response selects a language.  Until the user changes the
    [select], the code sent to [/api/audiobook] is the initial ["en"],
    whatever catalog has arrived in the meantime, with or without an entry
    for it. *)
Theorem audiobook_language_defaults_to_en
    (storage : gmap string string) (evs : list event) :
  forallb (λ ev, negb (selects_language ev)) evs = true →
  let w := (run evs (init storage)).1 in
  (step ClickGenerateAudio w).2 =
    [Send (next_id w) (authorize (localStorage w) (audiobook_request "en"))].
Proof.
  intros Hevs. cbn zeta. rewrite step_ClickGenerateAudio. cbn [snd].
  by rewrite (run_selectedLang evs (init storage) Hevs).
Qed.

(** * The further theorems at concrete sessions *)

Lemma login_failure_changes_nothing_witness :
  let failed := step (Settle 0 (Fulfilled (VObj []))) login_pending in
  failed.1 = settled 0 login_pending ∧
  requests failed.2 = [] ∧
  alerts failed.2 = ["Invalid credentials"].
Proof.
  apply (login_failure_changes_nothing login_pending 0 (Fulfilled (VObj [])));
    vm_compute; reflexivity.
Defined.

Lemma answer_is_shown_and_history_refetched_witness :
  let d := VObj [("answer", VStr "It is a summary.")] in
  let answered := step (Settle 5 (Fulfilled d)) asked_world in
  answer (react answered.1) = VStr "It is a summary." ∧
  qaHistory (react answered.1) = qaHistory (react asked_world) ∧
  answered.2 =
    [Send (next_id asked_world)
       (authorize (localStorage asked_world) history_request)] ∧
  in_flight answered.1 !! next_id asked_world = Some AfterHistory.
Proof.
  apply (answer_is_shown_and_history_refetched asked_world 5
           (VObj [("answer", VStr "It is a summary.")]) (VStr "It is a summary."));
    vm_compute; reflexivity.
Defined.

Lemma upload_records_name_chosen_at_click_witness :
  let clicked := (step ClickUpload file_selected).1 in
  let meanwhile := (run [FileInputChange [notes_txt]; NavLogout] clicked).1 in
  filename (react (step (Settle (next_id file_selected) (Fulfilled VNull)) meanwhile).1)
    = Some "report.pdf".
Proof.
  apply (upload_records_name_chosen_at_click file_selected report_pdf
           [FileInputChange [notes_txt]; NavLogout] VNull).
  - apply (bool_decide_unpack (ids_fresh file_selected)). vm_compute. reflexivity.
  - vm_compute. reflexivity.
  - vm_compute. reflexivity.
Defined.

Lemma upload_success_ignores_body_witness :
  let w := (step ClickUpload file_selected).1 in
  step (Settle 5 (Fulfilled VNull)) w =
    step (Settle 5 (Fulfilled (VObj [("status", VStr "ok")]))) w ∧
  filename (react (step (Settle 5 (Fulfilled VNull)) w).1) = Some (file_name report_pdf) ∧
  (step (Settle 5 (Fulfilled VNull)) w).2 =
    [Send (next_id w) (authorize (localStorage w) history_request);
     Alert "✅ File uploaded successfully!"].
Proof.
  apply (upload_success_ignores_body (step ClickUpload file_selected).1 5 report_pdf
           VNull (VObj [("status", VStr "ok")])).
  vm_compute. reflexivity.
Defined.

Lemma rejection_changes_nothing_witness :
  let e := AxiosError "Request failed with status code 503" in
  let failed := step (Settle 5 (Rejected e)) asked_world in
  failed.1 = settled 5 asked_world ∧
  requests failed.2 = [] ∧
  logged failed.2 = [(failure_label AfterAnswer, e)] ∧
  alerts failed.2 = failure_alert AfterAnswer.
Proof.
  apply (rejection_changes_nothing asked_world 5 AfterAnswer
           (AxiosError "Request failed with status code 503")).
  vm_compute. reflexivity.
Defined.

Lemma modal_never_over_authenticated_view_witness :
  let v := render (react (run (admin_login ++ [NavLogout]) (init ∅)).1) in
  main_content v = false ∧ nav v = LoginButton.
Proof.
  apply (modal_never_over_authenticated_view ∅ (admin_login ++ [NavLogout]));
    vm_compute; reflexivity.
Defined.

Lemma logged_in_only_with_token_witness :
  is_Some (localStorage (run admin_login (init ∅)).1 !! "auth_token").
Proof.
  apply (logged_in_only_with_token ∅ admin_login).
  vm_compute. reflexivity.
Defined.

Lemma only_auth_token_is_written_witness :
  localStorage (run (admin_login ++ [NavLogout]) themed_page).1 !! "theme" =
  localStorage themed_page !! "theme".
Proof.
  apply (only_auth_token_is_written (admin_login ++ [NavLogout]) themed_page "theme").
  vm_compute. discriminate.
Defined.

Lemma logout_restores_storage_witness :
  localStorage (step NavLogout (run admin_login themed_page).1).1 =
  localStorage themed_page.
Proof.
  apply (logout_restores_storage admin_login themed_page).
  vm_compute. reflexivity.
Defined.

Lemma loaders_run_only_where_called_witness :
  let ev := Settle 5 (Fulfilled (VObj [("answer", VStr "It is a summary.")])) in
  Forall (λ r, url r ≠ "/api/langs") (requests (step ev asked_world).2) ∧
  if refreshes_history ev asked_world
  then url <$> requests (step ev asked_world).2 = ["/api/qa-history"]
  else Forall (λ r, url r ≠ "/api/qa-history") (requests (step ev asked_world).2).
Proof.
  apply (loaders_run_only_where_called
           (Settle 5 (Fulfilled (VObj [("answer", VStr "It is a summary.")])))
           asked_world).
  vm_compute. reflexivity.
Defined.

Lemma audio_src_always_resolves_witness :
  ∃ b, blob_urls (run audio_generated (init ∅)).1 !! "blob:0" = Some b ∧
       blob_type b = "audio/mpeg".
Proof.
  apply (audio_src_always_resolves ∅ audio_generated "blob:0").
  vm_compute. reflexivity.
Defined.

Lemma history_response_after_logout_refills_witness :
  let d := VObj [("qa_pairs", VArr unsorted_pairs)] in
  let out := (step NavLogout admin_world).1 in
  let late := (step (Settle 2 (Fulfilled d)) out).1 in
  qaHistory (react out) = VArr [] ∧
  in_flight out !! 2 = Some AfterHistory ∧
  qaHistory (react late) = VArr unsorted_pairs ∧
  isLoggedIn (react late) = false ∧
  localStorage late !! "auth_token" = None.
Proof.
  apply (history_response_after_logout_refills admin_world 2
           (VObj [("qa_pairs", VArr unsorted_pairs)]) unsorted_pairs);
    vm_compute; reflexivity.
Defined.


Lemma credentials_stay_in_state_witness :
  username (react (run login_and_logout form_filled).1) = username (react form_filled) ∧
  password (react (run login_and_logout form_filled).1) = password (react form_filled).
Proof.
  apply (credentials_stay_in_state login_and_logout form_filled).
  vm_compute. reflexivity.
Defined.

Lemma requests_stay_in_flight_witness :
  in_flight (run [NavLogout; ClickLogin; Settle 1 (Rejected (AxiosError "timeout"))]
               admin_world).1 !! 2 = Some AfterHistory.
Proof.
  apply (requests_stay_in_flight
           [NavLogout; ClickLogin; Settle 1 (Rejected (AxiosError "timeout"))]
           admin_world 2 AfterHistory).
  - apply (bool_decide_unpack (ids_fresh admin_world)). vm_compute. reflexivity.
  - vm_compute. reflexivity.
  - vm_compute. reflexivity.
Defined.

Lemma audiobook_language_defaults_to_en_witness :
  let w := (run french_catalog (init ∅)).1 in
  (step ClickGenerateAudio w).2 =
    [Send (next_id w) (authorize (localStorage w) (audiobook_request "en"))].
Proof.
  apply (audiobook_language_defaults_to_en ∅ french_catalog).
  vm_compute. reflexivity.
Defined.

Lemma null_answer_body_is_a_failure_witness :
  step (Settle 5 (Fulfilled VNull)) asked_world =
    (settled 5 asked_world,
     [ConsoleError (Some "Ask failed:") (type_error VNull);
      Alert "Failed to get answer"]).
Proof.
  apply (null_answer_body_is_a_failure asked_world 5 VNull);
    vm_compute; reflexivity.
Defined.
